(** * The suggestion endpoint of browser-backend (src/api/suggest.ts)

    A shallow embedding of the request handler, of its two upstream fetchers,
    of the enrichment callback and of the daily cache maintenance task, with
    the properties the specification states about them.

    Layout:
    - [jsval]: the values the code reads out of parsed JSON ([json: any]),
      with JavaScript's property access, truthiness and strict equality;
    - [NodeCache]: the store behind [const cache = new NodeCache()];
    - [World] and the monad [M]: the process-wide state the code mutates
      (cache, console, issued fetches, promises nobody awaits) with
      exceptions;
    - the functions of suggest.ts, under their own names;
    - the theorems. *)

From Stdlib Require Import Floats ZArith.
From stdpp Require Import gmap strings list.

Set Warnings "-register-all,-inexact-float".
Local Open Scope Z_scope.

(** ** JavaScript values *)

(** Everything the code receives from upstream went through [r.json()] and is
    typed [any]: TypeScript's annotations are erased, so a field declared
    [string] holds whatever the JSON held, or [undefined] when it was absent.
    An object is its list of own properties; [JSON.parse] leaves no duplicate
    key, and a lookup takes the first binding. *)
Inductive jsval :=
| JUndefined
| JNull
| JBool (b : bool)
| JNum (n : float)
| JStr (s : string)
| JArr (items : list jsval)
| JObj (props : list (string * jsval)).

(** What the code can throw or reject with. *)
Inductive error :=
| ServerError (message : string) (statusCode : Z)
| TypeError (reading : string)
| SyntaxError
| FetchError (reason : string)
| KeyTypeError (key : jsval).

Inductive result (A : Type) :=
| Ok (a : A)
| Err (e : error).
Arguments Ok {A} a.
Arguments Err {A} e.

#[global] Instance result_ret : MRet result := λ A a, Ok a.
#[global] Instance result_bind : MBind result :=
  λ A B f m, match m with Ok a => f a | Err e => Err e end.

Fixpoint own (props : list (string * jsval)) (name : string) : jsval :=
  match props with
  | [] => JUndefined
  | (k, v) :: rest => if decide (k = name) then v else own rest name
  end.

(** [v.name], for the property names suggest.ts reads. None of them is
    inherited from [Object.prototype], [Array.prototype] or
    [String.prototype], so on anything but [undefined] and [null] the read is
    an own-property lookup, and a primitive or an array has no such member. *)
Definition getProp (v : jsval) (name : string) : result jsval :=
  match v with
  | JUndefined | JNull => Err (TypeError name)
  | JObj props => Ok (own props name)
  | _ => Ok JUndefined
  end.

(** [v[0]]. *)
Definition getFirst (v : jsval) : result jsval :=
  match v with
  | JUndefined | JNull => Err (TypeError "0")
  | JArr items => Ok (default JUndefined (head items))
  | JObj props => Ok (own props "0")
  | JStr (String c _) => Ok (JStr (String c EmptyString))
  | _ => Ok JUndefined
  end.

(** ToBoolean. *)
Definition truthy (v : jsval) : bool :=
  match v with
  | JUndefined | JNull => false
  | JBool b => b
  | JNum n => negb (PrimFloat.eqb n 0 || PrimFloat.is_nan n)
  | JStr s => negb (bool_decide (s = EmptyString))
  | JArr _ | JObj _ => true
  end.

(** [v === 'lit']. *)
Definition strictEqStr (v : jsval) (lit : string) : bool :=
  match v with
  | JStr s => bool_decide (s = lit)
  | _ => false
  end.

(** [v === undefined]. *)
Definition isUndefined (v : jsval) : bool :=
  match v with
  | JUndefined => true
  | _ => false
  end.

(** [v.toLowerCase()]: only a string has the method. *)
Definition callToLowerCase (lower : string → string) (v : jsval) : result string :=
  match v with
  | JStr s => Ok (lower s)
  | _ => Err (TypeError "toLowerCase")
  end.

(** ** The data of suggest.ts *)

(** [EdgeSuggestion]. [type] is only ever assigned one of the two literals
    ['search'] and ['entity']; the other members are copied out of upstream
    JSON unchecked. A member that is absent reads [undefined]. *)
Record EdgeSuggestion := {
  type : string;
  title : jsval;
  value : jsval;
  entityImage : jsval;
  subtitle2 : jsval
}.

(** What a slot of the merger's answer holds at run time. The array is
    declared [EdgeSuggestion[]], but a slot is assigned whatever [cache.get]
    answered when that was not [undefined], and node-cache answers [null]
    for a key that names an inherited member of its store. *)
Inductive Slot :=
| Null
| Filled (suggestion : EdgeSuggestion).

(** [EntityResult]: the merger's slots and its "fully enhanced" flag. *)
Definition EntityResult : Type := list Slot * bool.

(** The built-ins the code calls and the repository does not contain:
    [String.prototype.toLowerCase], [encodeURIComponent], the ToString
    conversion behind a template literal or a property key, and the two size
    estimates node-cache keeps its statistics with ([_getKeyLength],
    [_getValLength]). The theorems hold for every choice of them. Strings
    are taken to be well formed, so that [encodeURIComponent] is total (it
    throws on a lone surrogate only). *)
Class Platform := {
  toLowerCase : string → string;
  encodeURIComponent : string → string;
  ToString : jsval → string;
  ToString_JStr : ∀ s, ToString (JStr s) = s;
  keyLength : string → float;
  valLength : EdgeSuggestion → float
}.

(** ** node-cache *)

(** The store behind [const cache = new NodeCache()], after the documented
    behaviour of node-cache 5: every entry carries its expiry time [t] in
    milliseconds, [0] meaning that it never expires; [set] without a [ttl]
    uses [options.stdTTL], whose default [0] means unlimited; [get] drops an
    entry it finds expired; keys must be strings or numbers. Values are
    cloned on the way in and out, which a functional model does by itself.

    The store is a plain object, [this.data = {}], read as [this.data[key]]:
    besides the entries written to it, it shows the members it inherits.
    [data] holds its own properties and, under ["__proto__"], the entry that
    an assignment to [this.data["__proto__"]] installed as its prototype (no
    own property comes of that assignment, and [delete] does not undo
    it). *)
Module NodeCache.

Record Options := { stdTTL : Z; deleteOnExpire : bool }.

Record Entry := { t : Z; v : EdgeSuggestion }.

Record Stats := {
  hits : float;
  misses : float;
  keys : float;
  ksize : float;
  vsize : float
}.

Record Cache := { options : Options; data : gmap string Entry; stats : Stats }.

Definition defaults : Options := {| stdTTL := 0; deleteOnExpire := true |}.

Definition noStats : Stats :=
  {| hits := 0; misses := 0; keys := 0; ksize := 0; vsize := 0 |}.

(** [new NodeCache(options)] *)
Definition create (o : Options) : Cache :=
  {| options := o; data := ∅; stats := noStats |}.

Definition withStats (f : Stats → Stats) (c : Cache) : Cache :=
  {| options := options c; data := data c; stats := f (stats c) |}.

Definition hit (s : Stats) : Stats :=
  {| hits := hits s + 1; misses := misses s; keys := keys s;
     ksize := ksize s; vsize := vsize s |}.

Definition miss (s : Stats) : Stats :=
  {| hits := hits s; misses := misses s + 1; keys := keys s;
     ksize := ksize s; vsize := vsize s |}.

(** [_check]'s test: the entry is too old, and its time is not 0. *)
Definition expired (now : Z) (e : Entry) : bool :=
  negb (t e =? 0) && (t e <? now).

(** The members a plain object inherits from [Object.prototype]. *)
Definition objectPrototype : list string :=
  ["constructor"; "__defineGetter__"; "__defineSetter__"; "hasOwnProperty";
   "__lookupGetter__"; "__lookupSetter__"; "isPrototypeOf";
   "propertyIsEnumerable"; "toString"; "valueOf"; "__proto__";
   "toLocaleString"].

(** What [this.data[key]] reads: nothing, an entry ([{t, v}]), or a value
    that is no entry, of which only the truth value matters: a function or
    the object inherited from [Object.prototype], or, inherited from an
    entry installed as prototype, its time [t] (a number, falsy when 0) or
    its value [v]. Such a value is not [null], has no member [t] and no
    member [v]. *)
Inductive member :=
| Absent
| Wrapped (e : Entry)
| Foreign (truthy : bool).

Definition read (key : string) (c : Cache) : member :=
  match data c !! key with
  | Some e => Wrapped e
  | None =>
      let builtin :=
        if bool_decide (key ∈ objectPrototype) then Foreign true else Absent in
      match data c !! "__proto__" with
      | Some e =>
          if bool_decide (key = "t") then Foreign (negb (t e =? 0))
          else if bool_decide (key = "v") then Foreign true
          else builtin
      | None => builtin
      end
  end.

Section WithPlatform.
Context `{Platform}.

(** [_isInvalidKey]: [typeof key] is ['string'] or ['number']; the key
    then indexes a plain object, that is, by its ToString. *)
Definition validKey (key : jsval) : option string :=
  match key with
  | JStr _ | JNum _ => Some (ToString key)
  | _ => None
  end.

(** [_getValLength(_unwrap(this.data[key], false))]: the estimate of an
    entry's value; what is no entry unwraps to [null], which counts 0. *)
Definition unwrappedLength (m : member) : float :=
  match m with
  | Wrapped e => valLength (v e)
  | _ => 0
  end.

(** [del(key)], for one key: [if (this.data[key] != null)], the statistics
    are lowered and [delete this.data[key]] removes the own property. *)
Definition del (key : string) (c : Cache) : Cache :=
  match read key c with
  | Absent => c
  | m =>
      let s := stats c in
      {| options := options c;
         data := if bool_decide (key = "__proto__") then data c
                 else delete key (data c);
         stats := {| hits := hits s; misses := misses s;
                     keys := keys s - 1;
                     ksize := ksize s - keyLength key;
                     vsize := vsize s - unwrappedLength m |} |}
  end.

(** [get(key)]: [if (this.data[key] != null && this._check(key,
    this.data[key]))] it is a hit and [_unwrap] answers the entry's value, or
    [null] when what was read has no member [v]; otherwise [undefined]. *)
Definition get (now : Z) (key : jsval) (c : Cache)
  : result (option Slot) * Cache :=
  match validKey key with
  | None => (Err (KeyTypeError key), c)
  | Some k =>
      match read k c with
      | Wrapped e =>
          if expired now e && deleteOnExpire (options c)
          then (Ok None, withStats miss (del k c))
          else (Ok (Some (Filled (v e))), withStats hit c)
      | Foreign _ => (Ok (Some Null), withStats hit c)
      | Absent => (Ok None, withStats miss c)
      end
  end.

(** [_wrap]: the expiry time of a value stored at [now] for [ttl] seconds. *)
Definition livetime (now ttl : Z) : Z :=
  if ttl =? 0 then 0 else now + ttl * 1000.

Definition set (now : Z) (key : jsval) (value : EdgeSuggestion)
    (ttl : option Z) (c : Cache) : result unit * Cache :=
  match validKey key with
  | None => (Err (KeyTypeError key), c)
  | Some k =>
      let ttl := default (stdTTL (options c)) ttl in
      let s := stats c in
      let old := read k c in
      let existent :=
        match old with
        | Absent => false
        | Wrapped _ => true
        | Foreign truthy => truthy
        end in
      let vsize1 :=
        if existent then (vsize s - unwrappedLength old)%float
        else vsize s in
      (Ok (),
       {| options := options c;
          data := <[k := {| t := livetime now ttl; v := value |}]> (data c);
          stats := {| hits := hits s; misses := misses s;
                      keys := if existent then keys s
                              else (keys s + 1)%float;
                      ksize := if existent then ksize s
                               else (ksize s + keyLength k)%float;
                      vsize := vsize1 + valLength value |} |})
  end.

End WithPlatform.

Definition flushAll (c : Cache) : Cache :=
  {| options := options c; data := ∅; stats := noStats |}.

Definition getStats (c : Cache) : Stats := stats c.

End NodeCache.

(** ** The process state and the monad of effects *)

(** A promise chain [fetch(url).then(r => r.json()).then(callback)] that
    [fetchBingEntities] started and nobody awaits: the address it fetches and
    the suggestion its callback closed over ([results[x]], which is
    [suggestions[x]] on that path). *)
Record Pending := { url : string; captured : EdgeSuggestion }.

(** An argument of [console.error]. *)
Inductive logged :=
| LogMessage (text : string)
| LogError (err : error).

(** What the network answers to a [fetch]: the promise rejects, or the body
    is not JSON (then [r.json()] rejects), or it parses to a value. The
    status line plays no part: [fetch] resolves on every HTTP status. *)
Inductive FetchOutcome :=
| NetworkError (reason : string)
| InvalidJson
| JsonBody (json : jsval).

(** What suggest.ts reads and writes outside its arguments. [fetched] lists
    the addresses passed to [fetch], oldest first; [unhandled] collects the
    rejections of promises that have no handler. What the host does with
    those is not modelled: Node prints a warning, or, by default since
    version 15, ends the process. *)
Record World := {
  cache : NodeCache.Cache;
  BING_APP_ID : option string;
  clock : Z;
  console : list logged;
  fetched : list string;
  pending : list Pending;
  unhandled : list error
}.

Definition withCache (f : NodeCache.Cache → NodeCache.Cache) (w : World) : World :=
  {| cache := f (cache w); BING_APP_ID := BING_APP_ID w; clock := clock w;
     console := console w; fetched := fetched w; pending := pending w;
     unhandled := unhandled w |}.

(** A computation of suggest.ts: it runs on the world and returns or throws;
    what it did before throwing stays done. *)
Definition M (A : Type) : Type := World → result A * World.

#[global] Instance M_ret : MRet M := λ A a w, (Ok a, w).
#[global] Instance M_bind : MBind M :=
  λ A B f m w,
    match m w with
    | (Ok a, w') => f a w'
    | (Err e, w') => (Err e, w')
    end.

Definition lift {A} (r : result A) : M A := λ w, (r, w).

Definition getWorld : M World := λ w, (Ok w, w).

Definition when (b : bool) (m : M unit) : M unit := if b then m else mret ().

(** [console.error(x)] *)
Definition console_error (x : logged) : M unit :=
  λ w, (Ok (),
        {| cache := cache w; BING_APP_ID := BING_APP_ID w; clock := clock w;
           console := console w ++ [x]; fetched := fetched w;
           pending := pending w; unhandled := unhandled w |}).

Definition noteFetch (address : string) (w : World) : World :=
  {| cache := cache w; BING_APP_ID := BING_APP_ID w; clock := clock w;
     console := console w; fetched := fetched w ++ [address];
     pending := pending w; unhandled := unhandled w |}.

(** [await fetch(address).then(r => r.json())], the network answering
    [reply]. *)
Definition fetchJson (address : string) (reply : FetchOutcome) : M jsval :=
  λ w,
    let w' := noteFetch address w in
    match reply with
    | NetworkError reason => (Err (FetchError reason), w')
    | InvalidJson => (Err SyntaxError, w')
    | JsonBody json => (Ok json, w')
    end.

(** [fetch(address).then(r => r.json()).then(callback)] without [await]: the
    request leaves now, the callback runs when the answer arrives. *)
Definition fetchDetached (address : string) (closure : EdgeSuggestion) : M unit :=
  λ w,
    let w' := noteFetch address w in
    (Ok (),
     {| cache := cache w'; BING_APP_ID := BING_APP_ID w'; clock := clock w';
        console := console w'; fetched := fetched w';
        pending := pending w' ++ [{| url := address; captured := closure |}];
        unhandled := unhandled w' |}).

(** [`${process.env.BING_APP_ID}`] *)
Definition appid (w : World) : string := default "undefined" (BING_APP_ID w).

Section Suggest.
Context `{Platform}.

(** [cache.get(key)] *)
Definition cache_get (key : jsval) : M (option Slot) :=
  λ w,
    let '(r, c) := NodeCache.get (clock w) key (cache w) in
    (r, withCache (λ _, c) w).

(** [cache.set(key, value)] *)
Definition cache_set (key : jsval) (value : EdgeSuggestion) : M unit :=
  λ w,
    let '(r, c) := NodeCache.set (clock w) key value None (cache w) in
    (r, withCache (λ _, c) w).

(** Modelled from the spec: [throwServerError] and [ServerError] come from
    utils.js, which is not among the sources. After the spec's "fail with a
    classified error carrying HTTP status 429": the call throws a
    [ServerError] whose [statusCode] is its second argument. *)
Definition throwServerError {A} (message : string) (statusCode : Z) : result A :=
  Err (ServerError message statusCode).

(** The test both [.then] callbacks start with:
    [json._type === 'ErrorResponse' &&
     json.errors[0].code === 'RateLimitExceeded'] *)
Definition isRateLimitExceeded (json : jsval) : result bool :=
  _type ← getProp json "_type";
  if strictEqStr _type "ErrorResponse" then
    errors ← getProp json "errors";
    first ← getFirst errors;
    code ← getProp first "code";
    mret (strictEqStr code "RateLimitExceeded")
  else mret false.

(** The body of the [forEach] in [fetchBingSuggestions]: one raw item,
    annotated [BingSuggestion] and read as it comes, becomes one
    [EdgeSuggestion]. *)
Definition toEdgeSuggestion (suggestion : jsval) : result EdgeSuggestion :=
  displayText ← getProp suggestion "displayText";
  url ← getProp suggestion "url";
  mret {| type := "search"; title := displayText; value := url;
          entityImage := JUndefined; subtitle2 := JUndefined |}.

Fixpoint pushEach (items : list jsval) (results : list EdgeSuggestion)
  : result (list EdgeSuggestion) :=
  match items with
  | [] => mret results
  | suggestion :: rest =>
      s ← toEdgeSuggestion suggestion;
      pushEach rest (results ++ [s])
  end.

(** [rawSuggestions.forEach(...)]: only an array has the method. *)
Definition forEachPush (rawSuggestions : jsval) (results : list EdgeSuggestion)
  : result (list EdgeSuggestion) :=
  match rawSuggestions with
  | JArr items => pushEach items results
  | _ => Err (TypeError "forEach")
  end.

(** The second [.then] of [fetchBingSuggestions] (lines 36-53). *)
Definition onSuggestions (json : jsval) : result (list EdgeSuggestion) :=
  limited ← isRateLimitExceeded json;
  (if limited : bool
   then throwServerError "Bing autosuggest API rate limit exceeded" 429
   else mret ());;
  suggestionGroups ← getProp json "suggestionGroups";
  group ← getFirst suggestionGroups;
  searchSuggestions ← getProp group "searchSuggestions";
  let rawSuggestions :=
    if truthy searchSuggestions then searchSuggestions else JArr [] in
  forEachPush rawSuggestions [].

Definition suggestionsUrl (w : World) (query : jsval) : string :=
  "https://www.bingapis.com/api/v7/suggestions?appid=" +:+ appid w +:+
  "&q=" +:+ encodeURIComponent (ToString query).

Definition fetchBingSuggestions (query : jsval) (reply : FetchOutcome)
  : M (list EdgeSuggestion) :=
  w ← getWorld;
  json ← fetchJson (suggestionsUrl w query) reply;
  lift (onSuggestions json).

(** The value the enrichment callback caches (lines 90-109): the
    suggestion it closed over, unless the first entity of the answer is the
    dominant one and bears the suggestion's title up to case. *)
Definition resultToCache (plain : EdgeSuggestion) (json : jsval)
  : result EdgeSuggestion :=
  entities ← getProp json "entities";
  if truthy entities then
    value ← getProp entities "value";
    first ← getFirst value;
    let entity := if truthy first then first else JObj [] in
    info ← getProp entity "entityPresentationInfo";
    entityScenario ← getProp info "entityScenario";
    matches ←
      (if strictEqStr entityScenario "DominantEntity" then
         name ← getProp entity "name";
         lowerName ← callToLowerCase toLowerCase name;
         lowerTitle ← callToLowerCase toLowerCase (title plain);
         mret (bool_decide (lowerName = lowerTitle))
       else mret false);
    if matches : bool then
      name ← getProp entity "name";
      webSearchUrl ← getProp entity "webSearchUrl";
      image ← getProp entity "image";
      thumbnailUrl ←
        (if truthy image then getProp image "thumbnailUrl"
         else mret JUndefined);
      info ← getProp entity "entityPresentationInfo";
      entityTypeDisplayHint ← getProp info "entityTypeDisplayHint";
      mret {| type := "entity"; title := name; value := webSearchUrl;
              entityImage := thumbnailUrl;
              subtitle2 := entityTypeDisplayHint |}
    else mret plain
  else mret plain.

(** The second [.then] of the enrichment fetch (lines 83-113), for the
    suggestion [plain] of its closure. *)
Definition onEntities (plain : EdgeSuggestion) (json : jsval) : M unit :=
  limited ← lift (isRateLimitExceeded json);
  when limited
    (console_error (LogMessage "Bing search API rate limit exceeded"));;
  toCache ← lift (resultToCache plain json);
  cache_set (title plain) toCache.

Definition searchUrl (w : World) (title : jsval) : string :=
  "https://www.bingapis.com/api/v7/search?appid=" +:+ appid w +:+
  "&q=" +:+ encodeURIComponent (ToString title) +:+
  "&responseFilter=entities&count=1".

(** The [for] loop of [fetchBingEntities]: [todo] is [suggestions] from
    index [x] on, [results] holds the slots below [x]. *)
Fixpoint fetchBingEntities_from (todo : list EdgeSuggestion)
    (results : list Slot) (fullyEnhanced : bool) : M EntityResult :=
  match todo with
  | [] => mret (results, fullyEnhanced)
  | suggestion :: rest =>
      cached ← cache_get (title suggestion);
      match cached with
      | Some hit => fetchBingEntities_from rest (results ++ [hit]) fullyEnhanced
      | None =>
          w ← getWorld;
          fetchDetached (searchUrl w (title suggestion)) suggestion;;
          fetchBingEntities_from rest (results ++ [Filled suggestion]) false
      end
  end.

Definition fetchBingEntities (suggestions : list EdgeSuggestion)
  : M EntityResult :=
  fetchBingEntities_from suggestions [] true.

End Suggest.

(** ** The handler *)

(** [req.query], as far as the handler reads it. A parameter that is absent
    reads [undefined]. *)
Record Request := { q : jsval; enhance : jsval }.

(** What has been sent on [res]: nothing yet, [res.json({ q, suggestions })]
    (with Express's default status 200) or [res.sendStatus(code)]. *)
Inductive Sent :=
| NotSent
| SentJson (q : jsval) (suggestions : list Slot)
| SentStatus (statusCode : Z).

Record Response := { headers : list (string * string); sent : Sent }.

Definition freshResponse : Response := {| headers := []; sent := NotSent |}.

(** [res.set(field, value)] *)
Definition res_set (field value : string) (res : Response) : Response :=
  {| headers := headers res ++ [(field, value)]; sent := sent res |}.

(** [res.json({ q, suggestions })] *)
Definition res_json (q : jsval) (suggestions : list Slot)
    (res : Response) : Response :=
  {| headers := headers res; sent := SentJson q suggestions |}.

(** [res.sendStatus(code)] *)
Definition res_sendStatus (code : Z) (res : Response) : Response :=
  {| headers := headers res; sent := SentStatus code |}.

Definition status (res : Response) : option Z :=
  match sent res with
  | NotSent => None
  | SentJson _ _ => Some 200
  | SentStatus code => Some code
  end.

Definition quoted (s : string) : string :=
  String (Ascii.ascii_of_nat 34) (s +:+ String (Ascii.ascii_of_nat 34) EmptyString).

Section Handler.
Context `{Platform}.

(** The [try] block of the handler (lines 122-135). [reply] is what the
    network answers to the one fetch the handler awaits. *)
Definition handler_try (req : Request) (reply : FetchOutcome)
    (res : Response) : M Response :=
  when (isUndefined (q req))
    (lift (throwServerError ("Missing query parameter " +:+ quoted "q") 400));;
  w ← getWorld;
  when (bool_decide (BING_APP_ID w = None))
    (lift (throwServerError "Missing BING_APP_ID environment variable" 500));;
  suggestions ← fetchBingSuggestions (q req) reply;
  '(suggestions, fullyEnhanced) ←
    (if strictEqStr (enhance req) "true"
     then fetchBingEntities suggestions
     else mret (Filled <$> suggestions, true));
  let res :=
    if fullyEnhanced : bool
    then res_set "Cache-Control" "public, max-age=86400" res
    else res in
  mret (res_json (q req) suggestions res).

(** The default export: the [try] block and its [catch] (lines 136-142). *)
Definition handler (req : Request) (reply : FetchOutcome) (res : Response)
    (w : World) : Response * World :=
  match handler_try req reply res w with
  | (Ok res', w') => (res', w')
  | (Err err, w') =>
      let w'' := (console_error (LogError err) w').2 in
      match err with
      | ServerError _ statusCode =>
          (res_sendStatus (if statusCode =? 0 then 500 else statusCode) res, w'')
      | _ => (res, w'')
      end
  end.

End Handler.

(** ** Background work *)

Definition reject (e : error) (w : World) : World :=
  {| cache := cache w; BING_APP_ID := BING_APP_ID w; clock := clock w;
     console := console w; fetched := fetched w; pending := pending w;
     unhandled := unhandled w ++ [e] |}.

Section Background.
Context `{Platform}.

(** The promise chain of one enrichment fetch settles, the network having
    answered [reply]. The chain has no [.catch]: a rejected fetch, a body
    that does not parse and an exception of the callback all end as a
    rejection without a handler. *)
Definition settle (p : Pending) (reply : FetchOutcome) (w : World) : World :=
  match reply with
  | NetworkError reason => reject (FetchError reason) w
  | InvalidJson => reject SyntaxError w
  | JsonBody json =>
      match onEntities (captured p) json w with
      | (Ok _, w') => w'
      | (Err e, w') => reject e w'
      end
  end.

End Background.

(** [(vsize + ksize) * 0.000001], in binary64 as JavaScript computes it. *)
Definition cacheSize (w : World) : float :=
  let s := NodeCache.getStats (cache w) in
  ((NodeCache.vsize s + NodeCache.ksize s) * 0.000001)%float.

(** The task of [NodeCron.schedule('0 0 * * *', ...)] (lines 8-12). *)
Definition tick (w : World) : World :=
  if (128 <? cacheSize w)%float then withCache NodeCache.flushAll w else w.

(** ** The life of the process *)

(** What can happen to the process, one event at a time on the one thread:
    a request is handled, a pending enrichment promise settles, the daily
    task fires, time passes. A request is one event although it awaits its
    fetch: before the [await] the handler has read [req.query] and the
    credential only, so it is handled in the world it resumes in. *)
Inductive event :=
| Handle (req : Request) (reply : FetchOutcome)
| Settle (n : nat) (reply : FetchOutcome)
| Tick
| Elapse (ms : N).

Definition dropPending (n : nat) (w : World) : World :=
  {| cache := cache w; BING_APP_ID := BING_APP_ID w; clock := clock w;
     console := console w; fetched := fetched w;
     pending := delete n (pending w); unhandled := unhandled w |}.

Definition elapse (ms : N) (w : World) : World :=
  {| cache := cache w; BING_APP_ID := BING_APP_ID w;
     clock := clock w + Z.of_N ms;
     console := console w; fetched := fetched w; pending := pending w;
     unhandled := unhandled w |}.

Section Process.
Context `{Platform}.

Definition step (e : event) (w : World) : World :=
  match e with
  | Handle req reply => (handler req reply freshResponse w).2
  | Settle n reply =>
      match pending w !! n with
      | Some p => settle p reply (dropPending n w)
      | None => w
      end
  | Tick => tick w
  | Elapse ms => elapse ms w
  end.

Definition run (es : list event) (w : World) : World :=
  foldl (λ w e, step e w) w es.

End Process.

(** The process as it starts: [new NodeCache()] takes the default options. *)
Definition boot (key : option string) (now : Z) : World :=
  {| cache := NodeCache.create NodeCache.defaults; BING_APP_ID := key;
     clock := now; console := []; fetched := []; pending := [];
     unhandled := [] |}.

(** ** One platform, for the examples *)

Definition lowerAscii (c : Ascii.ascii) : Ascii.ascii :=
  let n := Ascii.N_of_ascii c in
  if ((65 <=? n) && (n <=? 90))%N then Ascii.ascii_of_N (n + 32) else c.

Fixpoint lowerString (s : string) : string :=
  match s with
  | EmptyString => EmptyString
  | String c rest => String (lowerAscii c) (lowerString rest)
  end.

Definition demoToString (v : jsval) : string :=
  match v with
  | JStr s => s
  | JUndefined => "undefined"
  | JNull => "null"
  | JBool true => "true"
  | JBool false => "false"
  | JNum _ => "NaN"
  | JArr _ => EmptyString
  | JObj _ => "[object Object]"
  end.

(** Lower case over ASCII, no escaping, a ToString that is right on strings,
    [undefined], [null] and booleans, and node-cache's estimates for the two
    object literals suggest.ts builds (80 per member). *)
#[local] Instance demo : Platform := {|
  toLowerCase := lowerString;
  encodeURIComponent := id;
  ToString := demoToString;
  ToString_JStr := λ _, eq_refl;
  keyLength := λ k, PrimFloat.of_uint63 (Uint63.of_Z (Z.of_nat (String.length k)));
  valLength := λ s, if bool_decide (type s = "entity") then 400%float else 240%float
|}.

(** Sample upstream answers and suggestions. *)
Definition rawItem (text address : string) : jsval :=
  JObj [("url", JStr address); ("displayText", JStr text);
        ("query", JStr text); ("searchKind", JStr "WebSearch")].

Definition suggestionsOf (items : list jsval) : jsval :=
  JObj [("_type", JStr "Suggestions");
        ("suggestionGroups",
         JArr [JObj [("name", JStr "Web"); ("searchSuggestions", JArr items)]])].

Definition entitiesOf (entities : list jsval) : jsval :=
  JObj [("_type", JStr "SearchResponse");
        ("entities", JObj [("value", JArr entities)])].

Definition entityNamed (name scenario : string) : jsval :=
  JObj [("name", JStr name);
        ("webSearchUrl", JStr "https://www.bing.com/entityexplore?q=Paris");
        ("image", JObj [("thumbnailUrl", JStr "https://www.bing.com/th?id=A1")]);
        ("entityPresentationInfo",
         JObj [("entityScenario", JStr scenario);
               ("entityTypeDisplayHint", JStr "City in France")])].

Definition rateLimited : jsval :=
  JObj [("_type", JStr "ErrorResponse");
        ("errors", JArr [JObj [("code", JStr "RateLimitExceeded");
                               ("message", JStr "Rate limit is exceeded.")]])].

Definition paris : EdgeSuggestion :=
  {| type := "search"; title := JStr "Paris";
     value := JStr "https://www.bing.com/search?q=Paris";
     entityImage := JUndefined; subtitle2 := JUndefined |}.

Definition parrot : EdgeSuggestion :=
  {| type := "search"; title := JStr "parrot";
     value := JStr "https://www.bing.com/search?q=parrot";
     entityImage := JUndefined; subtitle2 := JUndefined |}.

Definition parisEntity : EdgeSuggestion :=
  {| type := "entity"; title := JStr "PARIS";
     value := JStr "https://www.bing.com/entityexplore?q=Paris";
     entityImage := JStr "https://www.bing.com/th?id=A1";
     subtitle2 := JStr "City in France" |}.

Definition searchPar : Request := {| q := JStr "par"; enhance := JStr "true" |}.

(** A process that has served [?q=par&enhance=true] once and has seen the
    enrichment of "Paris" come back with the entity "PARIS". *)
Definition warmed : World :=
  run [Handle searchPar
         (JsonBody (suggestionsOf
            [rawItem "Paris" "https://www.bing.com/search?q=Paris";
             rawItem "parrot" "https://www.bing.com/search?q=parrot"]));
       Settle 0 (JsonBody (entitiesOf [entityNamed "PARIS" "DominantEntity"]))]
      (boot (Some "KEY") 1000).

(** An error envelope that is not about the rate limit, a success envelope
    whose group lists no suggestion, and a suggestion made of an upstream
    item without [displayText]. *)
Definition unauthorized : jsval :=
  JObj [("_type", JStr "ErrorResponse");
        ("errors", JArr [JObj [("code", JStr "InvalidAuthorization")]])].

Definition noSuggestions : jsval :=
  JObj [("_type", JStr "Suggestions");
        ("suggestionGroups", JArr [JObj [("name", JStr "Web")]])].

Definition untitled : EdgeSuggestion :=
  {| type := "search"; title := JUndefined;
     value := JStr "https://www.bing.com/search?q=";
     entityImage := JUndefined; subtitle2 := JUndefined |}.

(** A suggestion whose title names a member of [Object.prototype]. *)
Definition constructorSuggestion : EdgeSuggestion :=
  {| type := "search"; title := JStr "constructor";
     value := JStr "https://www.bing.com/search?q=constructor";
     entityImage := JUndefined; subtitle2 := JUndefined |}.

(** The events [warmed] is reached by. *)
Definition warming : list event :=
  [Handle searchPar
     (JsonBody (suggestionsOf
        [rawItem "Paris" "https://www.bing.com/search?q=Paris";
         rawItem "parrot" "https://www.bing.com/search?q=parrot"]));
   Settle 0 (JsonBody (entitiesOf [entityNamed "PARIS" "DominantEntity"]))].

(** [warmed] with the statistics of a cache grown to [bytes] of values. *)
Definition grown (bytes : float) : World :=
  withCache
    (NodeCache.withStats
       (λ s, {| NodeCache.hits := NodeCache.hits s;
                NodeCache.misses := NodeCache.misses s;
                NodeCache.keys := NodeCache.keys s;
                NodeCache.ksize := NodeCache.ksize s;
                NodeCache.vsize := bytes |}))
    warmed.

(** ** Vocabulary of the specification *)

(** The value stored under [k] and alive at [now]: what a [get] of [k]
    answers of the entries written to the store. *)
Definition peek (now : Z) (k : string) (c : NodeCache.Cache)
  : option EdgeSuggestion :=
  e ← NodeCache.data c !! k;
  if NodeCache.expired now e && NodeCache.deleteOnExpire (NodeCache.options c)
  then None else Some (NodeCache.v e).

(** What a [get] of key [k] at time [now] answers, without its effect on
    the store: the value of a live entry, [null] for what the store shows
    under [k] without its being an entry, nothing otherwise. *)
Definition answer (now : Z) (k : string) (c : NodeCache.Cache) : option Slot :=
  match NodeCache.read k c with
  | NodeCache.Absent => None
  | NodeCache.Wrapped e =>
      if NodeCache.expired now e && NodeCache.deleteOnExpire (NodeCache.options c)
      then None else Some (Filled (NodeCache.v e))
  | NodeCache.Foreign _ => Some Null
  end.

(** No entry of the store ever expires. *)
Definition lasting (c : NodeCache.Cache) : Prop :=
  ∀ k e, NodeCache.data c !! k = Some e → NodeCache.t e = 0.

(** [c'] is [c] less some entries that were dead at [now]; the prototype of
    the store is the same. *)
Definition prunedTo (now : Z) (c c' : NodeCache.Cache) : Prop :=
  NodeCache.options c' = NodeCache.options c ∧
  NodeCache.data c' !! "__proto__" = NodeCache.data c !! "__proto__" ∧
  ∀ k, NodeCache.data c' !! k = NodeCache.data c !! k ∨
       (NodeCache.data c' !! k = None ∧ peek now k c = None).

(** The entry under [k] never expires. *)
Definition keptForever (k : string) (c : NodeCache.Cache) : Prop :=
  ∃ e, NodeCache.data c !! k = Some e ∧ NodeCache.t e = 0.

(** The entry under [k] has a finite time to live: from some time on, a
    lookup misses. *)
Definition expires (k : string) (c : NodeCache.Cache) : Prop :=
  ∃ deadline, ∀ now, deadline < now → peek now k c = None.

Definition isObject (v : jsval) : Prop := ∃ props, v = JObj props.

(** The suggestion [fetchBingSuggestions] makes of a raw item. *)
Definition plainOf (raw : jsval) : EdgeSuggestion :=
  match raw with
  | JObj props =>
      {| type := "search"; title := own props "displayText";
         value := own props "url";
         entityImage := JUndefined; subtitle2 := JUndefined |}
  | _ =>
      {| type := "search"; title := JUndefined; value := JUndefined;
         entityImage := JUndefined; subtitle2 := JUndefined |}
  end.

(** A suggestion as [fetchBingSuggestions] makes them: of type "search",
    without the members an entity adds. *)
Definition isPlain (s : EdgeSuggestion) : Prop :=
  type s = "search" ∧ entityImage s = JUndefined ∧ subtitle2 s = JUndefined.

(** What a suggestion of this module looks like: plain, or an entity. *)
Definition wellShaped (s : EdgeSuggestion) : Prop :=
  isPlain s ∨ type s = "entity".

(** The header the handler marks an answer cacheable with. *)
Definition oneDay : string * string := ("Cache-Control", "public, max-age=86400").

(** What every state of the process satisfies: the cache keeps its default
    [stdTTL], the pending enrichments closed over plain suggestions, and
    every cache entry never expires and holds a plain suggestion or an
    entity. *)
Definition healthy (w : World) : Prop :=
  NodeCache.stdTTL (NodeCache.options (cache w)) = 0 ∧
  Forall (λ p, isPlain (captured p)) (pending w) ∧
  ∀ k e, NodeCache.data (cache w) !! k = Some e →
         NodeCache.t e = 0 ∧ wellShaped (NodeCache.v e).

(** An error envelope whose first error bears the code [RateLimitExceeded]. *)
Definition RateLimitEnvelope (json : jsval) : Prop :=
  ∃ errors first,
    getProp json "_type" = Ok (JStr "ErrorResponse") ∧
    getProp json "errors" = Ok errors ∧
    getFirst errors = Ok first ∧
    getProp first "code" = Ok (JStr "RateLimitExceeded").

(** A success envelope of the suggestion API carrying the raw [items]. *)
Definition SuggestionEnvelope (json : jsval) (items : list jsval) : Prop :=
  getProp json "_type" ≠ Ok (JStr "ErrorResponse") ∧
  ∃ groups group,
    getProp json "suggestionGroups" = Ok groups ∧
    getFirst groups = Ok group ∧
    getProp group "searchSuggestions" = Ok (JArr items).

(** [w] shows a merger what [w0] does: the same time, the same credential,
    and the cache of [w0] less some dead entries. *)
Definition sameView (w0 w : World) : Prop :=
  clock w = clock w0 ∧ BING_APP_ID w = BING_APP_ID w0 ∧
  prunedTo (clock w0) (cache w0) (cache w).

Section Vocabulary.
Context `{Platform}.

(** The cache hit for a suggestion title in the world [w], if there is
    one: what [cache.get] answers when it does not answer [undefined]. *)
Definition cached (w : World) (key : jsval) : option Slot :=
  k ← NodeCache.validKey key;
  answer (clock w) k (cache w).

(** Slot [i] of the merger's answer: the hit, or the suggestion itself. *)
Definition slot (w : World) (s : EdgeSuggestion) : Slot :=
  default (Filled s) (cached w (title s)).

Definition isMiss (w : World) (s : EdgeSuggestion) : bool :=
  bool_decide (cached w (title s) = None).

(** The promise [fetchBingEntities] leaves behind for a miss. *)
Definition enrichment (w : World) (s : EdgeSuggestion) : Pending :=
  {| url := searchUrl w (title s); captured := s |}.

(** The answer holds a first entity that is the dominant one and is named
    as the suggestion is titled, case apart. *)
Definition DominantMatch (plain : EdgeSuggestion) (json : jsval) : Prop :=
  ∃ entities value entity info name t,
    getProp json "entities" = Ok entities ∧
    getProp entities "value" = Ok value ∧
    getFirst value = Ok entity ∧
    getProp entity "entityPresentationInfo" = Ok info ∧
    getProp info "entityScenario" = Ok (JStr "DominantEntity") ∧
    getProp entity "name" = Ok (JStr name) ∧
    title plain = JStr t ∧
    toLowerCase name = toLowerCase t.

(** Every [Tick] of the run finds the cache at or under the threshold, so
    none of them flushes. *)
Fixpoint unflushed (es : list event) (w : World) : Prop :=
  match es with
  | [] => True
  | e :: rest =>
      (e = Tick → (128 <? cacheSize w)%float = false) ∧
      unflushed rest (step e w)
  end.

End Vocabulary.

(** * Properties *)

(** ** The store *)

Lemma prunedTo_refl now c : prunedTo now c c.
Proof. split; [done | split; [done | by left]]. Qed.

Lemma peek_pruned now c c' k : prunedTo now c c' → peek now k c' = peek now k c.
Proof.
  intros (Hopt & _ & Hdata). destruct (Hdata k) as [Heq | [Hnone Hdead]].
  - unfold peek. by rewrite Heq, Hopt.
  - rewrite Hdead. unfold peek. by rewrite Hnone.
Qed.

Lemma prunedTo_trans now c1 c2 c3 :
  prunedTo now c1 c2 → prunedTo now c2 c3 → prunedTo now c1 c3.
Proof.
  intros H12 H23. pose proof H12 as (Ho12 & Hp12 & Hd12).
  pose proof H23 as (Ho23 & Hp23 & Hd23).
  split; [congruence |]. split; [congruence |]. intros k.
  destruct (Hd23 k) as [Heq | [Hnone Hdead]].
  - rewrite Heq. apply Hd12.
  - right. split; [done |]. by rewrite <- (peek_pruned now c1 c2 k).
Qed.

Lemma keptForever_pruned now k c c' :
  prunedTo now c c' → keptForever k c → keptForever k c'.
Proof.
  intros (_ & _ & Hdata) (e & Hk & Ht). exists e. split; [| done].
  destruct (Hdata k) as [-> | [_ Hdead]]; [done |].
  unfold peek, NodeCache.expired in Hdead. rewrite Hk in Hdead. simpl in Hdead.
  rewrite Ht in Hdead. by simpl in Hdead.
Qed.

Lemma keptForever_peek now k c :
  keptForever k c → is_Some (peek now k c).
Proof.
  intros (e & Hk & Ht). unfold peek, NodeCache.expired. rewrite Hk. simpl.
  rewrite Ht. by simpl.
Qed.

Lemma read_wrapped k c e :
  NodeCache.read k c = NodeCache.Wrapped e → NodeCache.data c !! k = Some e.
Proof.
  unfold NodeCache.read. destruct (NodeCache.data c !! k); [congruence |].
  destruct (NodeCache.data c !! "__proto__");
    repeat case_bool_decide; discriminate.
Qed.

(** Of an entry written under [k], a [get] answers the value while it is
    alive. *)
Lemma answer_stored now k c e :
  NodeCache.data c !! k = Some e → answer now k c = Filled <$> peek now k c.
Proof.
  intros Hk. unfold answer, peek, NodeCache.read. rewrite Hk. simpl.
  by destruct (_ && _).
Qed.

Lemma keptForever_answer now k c : keptForever k c → is_Some (answer now k c).
Proof.
  intros Hkept. pose proof (keptForever_peek now k c Hkept) as [hit Hhit].
  destruct Hkept as (e & Hk & _). rewrite (answer_stored _ _ _ _ Hk), Hhit.
  by eexists.
Qed.

(** A miss stays one when dead entries come back: what a [get] misses in the
    pruned store, it missed before. *)
Lemma answer_miss_pruned now c c' k :
  prunedTo now c c' → answer now k c' = None → answer now k c = None.
Proof.
  intros (Hopt & Hproto & Hdata). unfold answer, NodeCache.read.
  rewrite Hproto, Hopt.
  destruct (Hdata k) as [-> | [-> Hdead]]; [done |].
  unfold peek in Hdead.
  destruct (NodeCache.data c !! k) as [e |]; simpl in *; [| done].
  by destruct (_ && _).
Qed.

(** Where no entry ever expires, pruning removes nothing. *)
Lemma answer_pruned_lasting now c c' k :
  lasting c → prunedTo now c c' → answer now k c' = answer now k c.
Proof.
  intros Hlasting (Hopt & Hproto & Hdata). unfold answer, NodeCache.read.
  rewrite Hproto, Hopt.
  destruct (Hdata k) as [-> | [Hnone Hdead]]; [done |].
  unfold peek, NodeCache.expired in Hdead.
  destruct (NodeCache.data c !! k) as [e |] eqn:Hk; simpl in *;
    [| by rewrite Hnone].
  rewrite (Hlasting k e Hk) in Hdead. by simpl in Hdead.
Qed.

Section StoreFacts.
Context `{Platform}.

(** A string is its own key. *)
Lemma validKey_string s : NodeCache.validKey (JStr s) = Some s.
Proof. unfold NodeCache.validKey. by rewrite ToString_JStr. Qed.

Lemma del_dead now k c :
  peek now k c = None → prunedTo now c (NodeCache.del k c).
Proof.
  intros Hdead. unfold NodeCache.del.
  destruct (NodeCache.read k c); [apply prunedTo_refl | |];
    (case_bool_decide as Hproto;
     [split; [done |]; split; [done |]; intros k'; by left |]);
    (split; [done |]; split; [simpl; by rewrite lookup_delete_ne |];
     intros k'; simpl; destruct (decide (k' = k)) as [-> | Hne];
     [right; by rewrite lookup_delete_eq | left; by rewrite lookup_delete_ne]).
Qed.

(** A [get] with a valid key answers what [answer] says and removes at most
    a dead entry. *)
Lemma get_valid now key k c :
  NodeCache.validKey key = Some k →
  ∃ c', NodeCache.get now key c = (Ok (answer now k c), c') ∧ prunedTo now c c'.
Proof.
  intros Hkey. unfold NodeCache.get, answer. rewrite Hkey.
  destruct (NodeCache.read k c) as [| e |] eqn:Hread.
  - eexists. split; [done |]. split; [done | split; [done | intros ?; by left]].
  - destruct (NodeCache.expired now e && _) eqn:Hdead.
    + eexists. split; [done |].
      assert (prunedTo now c (NodeCache.del k c)) as (Ho & Hp & Hd).
      { apply del_dead. unfold NodeCache.read in Hread. unfold peek.
        destruct (NodeCache.data c !! k) as [e' |]; simpl.
        - injection Hread as ->. by rewrite Hdead.
        - done. }
      split; [done | split; [done | apply Hd]].
    + eexists. split; [done |]. split; [done | split; [done | intros ?; by left]].
  - eexists. split; [done |]. split; [done | split; [done | intros ?; by left]].
Qed.

Lemma get_invalid now key c :
  NodeCache.validKey key = None →
  NodeCache.get now key c = (Err (KeyTypeError key), c).
Proof. intros Hkey. unfold NodeCache.get. by rewrite Hkey. Qed.

(** A [set] without [ttl] stores the value under the key, to expire as
    [stdTTL] says. *)
Lemma set_valid now key k value c :
  NodeCache.validKey key = Some k →
  ∃ c', NodeCache.set now key value None c = (Ok (), c') ∧
        NodeCache.options c' = NodeCache.options c ∧
        NodeCache.data c' =
          <[k := {| NodeCache.t :=
                      NodeCache.livetime now (NodeCache.stdTTL (NodeCache.options c));
                    NodeCache.v := value |}]> (NodeCache.data c).
Proof.
  intros Hkey. unfold NodeCache.set. rewrite Hkey. eexists. by split.
Qed.

Lemma set_invalid now key value ttl c :
  NodeCache.validKey key = None →
  NodeCache.set now key value ttl c = (Err (KeyTypeError key), c).
Proof. intros Hkey. unfold NodeCache.set. by rewrite Hkey. Qed.

End StoreFacts.

(** ** The enrichment merger *)

Lemma sameView_refl w : sameView w w.
Proof. split; [done | split; [done | apply prunedTo_refl]]. Qed.

(** Two worlds that differ in neither clock, credential nor cache. *)
Ltac same_view := split; [done | split; [done | apply prunedTo_refl]].

Section MergerFacts.
Context `{Platform}.

Lemma cached_sameView w0 w key :
  lasting (cache w0) → sameView w0 w → cached w key = cached w0 key.
Proof.
  intros Hlasting (Hclock & _ & Hpruned). unfold cached.
  destruct (NodeCache.validKey key); simpl; [| done].
  rewrite Hclock. by apply answer_pruned_lasting.
Qed.

Lemma cached_miss_sameView w0 w key :
  sameView w0 w → cached w key = None → cached w0 key = None.
Proof.
  intros (Hclock & _ & Hpruned). unfold cached.
  destruct (NodeCache.validKey key); simpl; [| done].
  rewrite Hclock. by apply answer_miss_pruned.
Qed.

Lemma searchUrl_sameView w0 w key : sameView w0 w → searchUrl w key = searchUrl w0 key.
Proof. intros (_ & Hid & _). unfold searchUrl, appid. by rewrite Hid. Qed.

Lemma cache_get_valid key w :
  is_Some (NodeCache.validKey key) →
  ∃ w', cache_get key w = (Ok (cached w key), w') ∧ sameView w w' ∧
        console w' = console w ∧ fetched w' = fetched w ∧
        pending w' = pending w ∧ unhandled w' = unhandled w.
Proof.
  intros [k Hkey]. unfold cache_get, cached. rewrite Hkey. simpl.
  destruct (get_valid (clock w) key k (cache w) Hkey) as (c' & -> & Hpruned).
  eexists. split; [done |]. by split_and!.
Qed.

Lemma cache_get_invalid key w :
  NodeCache.validKey key = None →
  cache_get key w = (Err (KeyTypeError key), w).
Proof.
  intros Hkey. unfold cache_get. rewrite (get_invalid _ _ _ Hkey).
  by destruct w.
Qed.

(** The loop of [fetchBingEntities], from any index, over a store none of
    whose entries expires: seen from the world [w0] it was entered in, it
    appends one slot per suggestion left, lowers the flag at the first miss,
    starts one fetch per miss and touches nothing else. *)
Lemma fetchBingEntities_from_spec todo : ∀ results fullyEnhanced w0 w,
  lasting (cache w0) →
  sameView w0 w →
  Forall (λ s, is_Some (NodeCache.validKey (title s))) todo →
  ∃ w', fetchBingEntities_from todo results fullyEnhanced w =
          (Ok (results ++ (slot w0 <$> todo),
               fullyEnhanced && forallb (λ s, negb (isMiss w0 s)) todo), w') ∧
        sameView w0 w' ∧
        console w' = console w ∧ unhandled w' = unhandled w ∧
        pending w' =
          pending w ++ (enrichment w0 <$> filter (λ s, cached w0 (title s) = None) todo) ∧
        fetched w' =
          fetched w ++ ((λ s, searchUrl w0 (title s)) <$>
                        filter (λ s, cached w0 (title s) = None) todo).
Proof.
  induction todo as [| s rest IH];
    intros results fullyEnhanced w0 w Hlasting Hview Hkeys.
  - exists w. simpl. rewrite !app_nil_r, andb_true_r. by split_and!.
  - apply Forall_cons in Hkeys as [Hkey Hrest]. simpl.
    destruct (cache_get_valid (title s) w Hkey)
      as (w1 & Hget & Hview1 & Hcon1 & Hfet1 & Hpen1 & Hunh1).
    assert (sameView w0 w1) as Hview01.
    { destruct Hview as (? & ? & ?), Hview1 as (? & ? & ?).
      split; [congruence | split; [congruence |]].
      eapply prunedTo_trans; [done |]. by replace (clock w0) with (clock w). }
    unfold mbind at 1, M_bind at 1. rewrite Hget.
    rewrite (cached_sameView w0 w _ Hlasting Hview).
    unfold isMiss, slot. rewrite filter_cons.
    destruct (cached w0 (title s)) as [hit |] eqn:Hcached; simpl.
    + destruct (IH (results ++ [hit]) fullyEnhanced w0 w1 Hlasting Hview01 Hrest)
        as (w' & -> & ? & ? & ? & ? & ?).
      exists w'. rewrite <- app_assoc. simpl.
      split_and!; try done; congruence.
    + set (w2 := (fetchDetached (searchUrl w1 (title s)) s w1).2).
      assert (sameView w0 w2) as Hview02 by done.
      destruct (IH (results ++ [Filled s]) false w0 w2 Hlasting Hview02 Hrest)
        as (w' & Hrun & ? & Hcon & Hunh & Hpen & Hfet).
      exists w'. unfold mbind, M_bind, getWorld. simpl.
      unfold w2 in Hrun, Hcon, Hunh, Hpen, Hfet. simpl in Hrun, Hcon, Hunh, Hpen, Hfet.
      rewrite Hrun, <- app_assoc, andb_false_r. simpl.
      split_and!; try done.
      * by rewrite Hcon.
      * by rewrite Hunh.
      * rewrite Hpen, Hpen1, <- app_assoc. simpl.
        unfold enrichment at 2. by rewrite (searchUrl_sameView w0 w1).
      * rewrite Hfet, Hfet1, <- app_assoc. simpl.
        by rewrite (searchUrl_sameView w0 w1).
Qed.

(** With titles that are cache keys the merger returns. *)
Lemma fetchBingEntities_from_total todo : ∀ results fullyEnhanced w,
  Forall (λ s, is_Some (NodeCache.validKey (title s))) todo →
  ∃ r w', fetchBingEntities_from todo results fullyEnhanced w = (Ok r, w').
Proof.
  induction todo as [| s rest IH]; intros results fullyEnhanced w Hkeys.
  - by eexists _, _.
  - apply Forall_cons in Hkeys as [Hkey Hrest]. simpl.
    destruct (cache_get_valid (title s) w Hkey) as (w1 & Hget & _).
    unfold mbind at 1, M_bind at 1. rewrite Hget.
    destruct (cached w (title s)); [by apply IH |].
    unfold mbind, M_bind, getWorld. simpl. by apply IH.
Qed.

(** C1, at the input where the code departs from it. A title that names a
    member every object inherits ("constructor", "toString", ...), and under
    which nothing is cached, is no miss to [cache.get]: node-cache reads
    [this.data[key]] off a plain object, finds the inherited member and
    answers [null], which line 69 takes for a cached entry. The slot is then
    neither the cached entry (there is none) nor the suggestion, the flag
    stays up although nothing was cached, and no enrichment is started. *)
Theorem fetchBingEntities_null_slot s name w :
  title s = JStr name → name ∈ NodeCache.objectPrototype →
  NodeCache.data (cache w) !! name = None →
  ∃ w',
    fetchBingEntities [s] w = (Ok ([Null], true), w') ∧
    pending w' = pending w ∧ fetched w' = fetched w ∧
    NodeCache.data (cache w') = NodeCache.data (cache w).
Proof.
  intros Htitle Hmember Hnone.
  unfold fetchBingEntities. simpl. unfold mbind, M_bind, cache_get.
  unfold NodeCache.get. rewrite Htitle, validKey_string.
  assert (∃ truthy, NodeCache.read name (cache w) = NodeCache.Foreign truthy)
    as [truthy ->].
  { unfold NodeCache.read. rewrite Hnone, (bool_decide_eq_true_2 _ Hmember).
    destruct (NodeCache.data (cache w) !! "__proto__");
      repeat case_bool_decide; by eexists. }
  eexists. by split_and!.
Qed.

(** X15. Over a store none of whose entries expires (as in the process),
    for every sequence of suggestions whose titles are cache keys
    [fetchBingEntities] returns a sequence of the same length in the same
    order, slot [i] being what [cache.get] answered for the title of
    [suggestions[i]] when it answered (the cached entry, or [null]), and
    [suggestions[i]] itself otherwise, with a flag that is true exactly when
    [cache.get] answered for every title. *)
Theorem fetchBingEntities_slots suggestions w :
  lasting (cache w) →
  Forall (λ s, is_Some (NodeCache.validKey (title s))) suggestions →
  ∃ results fullyEnhanced w',
    fetchBingEntities suggestions w = (Ok (results, fullyEnhanced), w') ∧
    length results = length suggestions ∧
    (∀ i s, suggestions !! i = Some s →
       results !! i =
         Some (match cached w (title s) with
               | Some hit => hit
               | None => Filled s
               end)) ∧
    (fullyEnhanced = true ↔
     ∀ s, s ∈ suggestions → is_Some (cached w (title s))).
Proof.
  intros Hlasting Hkeys.
  destruct (fetchBingEntities_from_spec suggestions [] true w w
              Hlasting (sameView_refl w) Hkeys) as (w' & Hrun & _).
  eexists _, _, w'. split; [exact Hrun |]. simpl. split_and!.
  - by rewrite length_fmap.
  - intros i s Hi. rewrite list_lookup_fmap, Hi. done.
  - rewrite forallb_forall. split.
    + intros Hall s Hs. apply list_elem_of_In, Hall in Hs.
      unfold isMiss in Hs. apply negb_true_iff, bool_decide_eq_false in Hs.
      by destruct (cached w (title s)).
    + intros Hall s Hs. apply list_elem_of_In, Hall in Hs as [hit Hhit].
      unfold isMiss. by rewrite Hhit.
Qed.

End MergerFacts.

Lemma warmed_lasting : lasting (cache warmed).
Proof.
  intros k e Hk.
  assert (NodeCache.data (cache warmed) =
          {["Paris" := {| NodeCache.t := 0; NodeCache.v := parisEntity |}]})
    as Hdata by (vm_compute; reflexivity).
  rewrite Hdata in Hk. apply lookup_singleton_Some in Hk as [_ <-]. done.
Qed.

Lemma fetchBingEntities_null_slot_witness :
  title constructorSuggestion = JStr "constructor" ∧
  "constructor" ∈ NodeCache.objectPrototype ∧
  NodeCache.data (cache (boot (Some "KEY") 1000)) !! "constructor" = None ∧
  ∃ w',
    fetchBingEntities [constructorSuggestion] (boot (Some "KEY") 1000) =
      (Ok ([Null], true), w') ∧
    pending w' = [] ∧ fetched w' = [].
Proof.
  assert ("constructor" ∈ NodeCache.objectPrototype) as Hmember.
  { apply list_elem_of_here. }
  split_and!; [reflexivity | exact Hmember | reflexivity |].
  destruct (fetchBingEntities_null_slot (H := demo) constructorSuggestion
              "constructor" (boot (Some "KEY") 1000) eq_refl Hmember eq_refl)
    as (w' & Hrun & Hpending & Hfetched & _).
  by exists w'.
Defined.

(** The same through the handler: the body holds [null] under the header
    that marks it cacheable for a day, and nothing is enriched. *)
Example handler_null_suggestion :
  (handler {| q := JStr "cons"; enhance := JStr "true" |}
     (JsonBody (suggestionsOf
        [rawItem "constructor" "https://www.bing.com/search?q=constructor"]))
     freshResponse (boot (Some "KEY") 1000)).1 =
  {| headers := [oneDay]; sent := SentJson (JStr "cons") [Null] |}.
Proof. vm_compute. reflexivity. Qed.

Lemma fetchBingEntities_slots_witness :
  lasting (cache warmed) ∧
  Forall (λ s, is_Some (NodeCache.validKey (title s))) [paris; parrot] ∧
  ∃ results fullyEnhanced w',
    fetchBingEntities [paris; parrot] warmed = (Ok (results, fullyEnhanced), w') ∧
    length results = 2%nat ∧
    (∀ i s, [paris; parrot] !! i = Some s →
       results !! i =
         Some (match cached warmed (title s) with
               | Some hit => hit
               | None => Filled s
               end)) ∧
    (fullyEnhanced = true ↔
     ∀ s, s ∈ [paris; parrot] → is_Some (cached warmed (title s))).
Proof.
  split; [exact warmed_lasting |]. split.
  - repeat constructor; by eexists.
  - apply (fetchBingEntities_slots [paris; parrot] warmed warmed_lasting).
    repeat constructor; by eexists.
Defined.

(** On that input the merger answers the cached entity for "Paris", the
    plain suggestion for "parrot", and a flag that is down. *)
Example fetchBingEntities_warmed :
  (fetchBingEntities [paris; parrot] warmed).1 =
  Ok ([Filled parisEntity; Filled parrot], false).
Proof. vm_compute. reflexivity. Qed.

(** A title that is no cache key makes [cache.get] throw, and the merger with
    it. *)
Example fetchBingEntities_bad_title :
  (fetchBingEntities
     [{| type := "search"; title := JUndefined; value := JUndefined;
         entityImage := JUndefined; subtitle2 := JUndefined |}] warmed).1 =
  Err (KeyTypeError JUndefined).
Proof. vm_compute. reflexivity. Qed.

(** ** The suggestion fetcher *)

Section FetcherFacts.
Context `{Platform}.

Lemma isRateLimitExceeded_envelope json :
  isRateLimitExceeded json = Ok true ↔ RateLimitEnvelope json.
Proof.
  unfold isRateLimitExceeded, RateLimitEnvelope. split.
  - destruct (getProp json "_type") as [ty |] eqn:Hty; simpl; [| done].
    destruct ty as [| | | | s | |]; simpl; try done.
    case_bool_decide as Hs; [subst s | done].
    destruct (getProp json "errors") as [errors |] eqn:Herrors; simpl; [| done].
    destruct (getFirst errors) as [first |] eqn:Hfirst; simpl; [| done].
    destruct (getProp first "code") as [code |] eqn:Hcode; simpl; [| done].
    destruct code as [| | | | c | |]; simpl; try done.
    case_bool_decide as Hc; [subst c | done].
    intros _. by exists errors, first.
  - intros (errors & first & -> & -> & Hfirst & Hcode). simpl.
    rewrite Hfirst. simpl. rewrite Hcode. done.
Qed.

Lemma pushEach_objects items : ∀ results,
  Forall isObject items →
  pushEach items results = Ok (results ++ (plainOf <$> items)).
Proof.
  induction items as [| item rest IH]; intros results Hobjects; simpl.
  - by rewrite app_nil_r.
  - apply Forall_cons in Hobjects as [[props ->] Hrest]. simpl.
    rewrite (IH _ Hrest), <- app_assoc. done.
Qed.

(** On a success envelope the fetcher's callback maps the raw items one by
    one, in order. *)
Lemma onSuggestions_envelope json items :
  SuggestionEnvelope json items → Forall isObject items →
  onSuggestions json = Ok (plainOf <$> items).
Proof.
  intros (Hty & groups & group & Hgroups & Hgroup & Hitems) Hobjects.
  unfold onSuggestions.
  assert (isRateLimitExceeded json = Ok false) as ->.
  { unfold isRateLimitExceeded.
    destruct json; try done; simpl in *.
    destruct (own props "_type") as [| | | | s | |]; simpl; try done.
    case_bool_decide; [by subst s |]. done. }
  simpl. rewrite Hgroups. simpl. rewrite Hgroup. simpl. rewrite Hitems.
  simpl. by apply pushEach_objects.
Qed.

Lemma onSuggestions_rate_limited json :
  RateLimitEnvelope json →
  onSuggestions json =
    Err (ServerError "Bing autosuggest API rate limit exceeded" 429).
Proof.
  intros Hlimited%isRateLimitExceeded_envelope.
  unfold onSuggestions. by rewrite Hlimited.
Qed.

End FetcherFacts.

(** ** The handler *)

Section HandlerFacts.
Context `{Platform}.

(** With [q] and the credential present the handler gets as far as its
    fetch, and goes on with what [onSuggestions] makes of the answer. *)
Lemma handler_try_fetches req json res w :
  isUndefined (q req) = false → is_Some (BING_APP_ID w) →
  handler_try req (JsonBody json) res w =
    let w1 := noteFetch (suggestionsUrl w (q req)) w in
    match onSuggestions json with
    | Err e => (Err e, w1)
    | Ok suggestions =>
        ('(suggestions, fullyEnhanced) ←
           (if strictEqStr (enhance req) "true"
            then fetchBingEntities suggestions
            else mret (Filled <$> suggestions, true));
         mret (res_json (q req) suggestions
                 (if fullyEnhanced : bool
                  then res_set "Cache-Control" "public, max-age=86400" res
                  else res))) w1
    end.
Proof.
  intros Hq [key Hkey]. unfold handler_try, when. rewrite Hq.
  unfold mbind at 1, M_bind at 1, mret at 1, M_ret at 1.
  unfold mbind at 1, M_bind at 1, getWorld at 1.
  rewrite Hkey. simpl bool_decide. cbv iota.
  unfold mbind at 1, M_bind at 1, mret at 1, M_ret at 1.
  unfold mbind at 1, M_bind at 1, fetchBingSuggestions.
  unfold mbind at 1, M_bind at 1, getWorld at 1.
  unfold mbind at 1, M_bind at 1, fetchJson, lift.
  by destruct (onSuggestions json).
Qed.

(** C7. For every request whose query parameter [q] is absent, the handler
    responds with status 400 and issues no upstream call: nothing is
    fetched, awaited or not. *)
Theorem handler_missing_q req reply res w :
  q req = JUndefined →
  ∃ w', handler req reply res w = (res_sendStatus 400 res, w') ∧
        status (res_sendStatus 400 res) = Some 400 ∧
        fetched w' = fetched w ∧ pending w' = pending w ∧
        cache w' = cache w.
Proof.
  intros Hq. unfold handler, handler_try, when. rewrite Hq. simpl.
  eexists. by split_and!.
Qed.

(** C2. For every request whose suggestion fetch answers an error envelope
    with code [RateLimitExceeded], the handler responds with status 429 and
    issues no entity-search request: its only fetch is the suggestion one,
    and it leaves no enrichment promise behind. *)
Theorem handler_rate_limited req res w json :
  isUndefined (q req) = false → is_Some (BING_APP_ID w) →
  RateLimitEnvelope json →
  ∃ w', handler req (JsonBody json) res w = (res_sendStatus 429 res, w') ∧
        status (res_sendStatus 429 res) = Some 429 ∧
        fetched w' = fetched w ++ [suggestionsUrl w (q req)] ∧
        pending w' = pending w ∧
        cache w' = cache w.
Proof.
  intros Hq Hkey Hlimited. unfold handler.
  rewrite (handler_try_fetches _ _ _ _ Hq Hkey).
  rewrite (onSuggestions_rate_limited _ Hlimited). simpl.
  eexists. by split_and!.
Qed.

(** C6. For every success envelope of the suggestion API with N raw items,
    [enhance] being unset, the handler responds with exactly those N items
    in upstream order, each as
    [{type: "search", title: displayText, value: url}], under the header
    [Cache-Control: public, max-age=86400] (86400 s are one day). *)
Theorem handler_plain req res w json items :
  isUndefined (q req) = false → is_Some (BING_APP_ID w) →
  enhance req = JUndefined →
  SuggestionEnvelope json items → Forall isObject items →
  ∃ res' w',
    handler req (JsonBody json) res w = (res', w') ∧
    sent res' = SentJson (q req) (Filled <$> (plainOf <$> items)) ∧
    length (plainOf <$> items) = length items ∧
    status res' = Some 200 ∧
    headers res' = headers res ++ [("Cache-Control", "public, max-age=86400")] ∧
    pending w' = pending w.
Proof.
  intros Hq Hkey Henhance Henvelope Hobjects. unfold handler.
  rewrite (handler_try_fetches _ _ _ _ Hq Hkey).
  rewrite (onSuggestions_envelope _ _ Henvelope Hobjects), Henhance. simpl.
  eexists _, _. split; [done |]. split_and!; try done.
  by rewrite length_fmap.
Qed.

(** X6. With [enhance=true], over a store none of whose entries expires (as
    in the process), on a success envelope whose items bear titles, the
    handler answers at once with the merger's slots (what [cache.get]
    answered for the title where it answered: the cached entry, or [null]
    for an uncached title that names a member every object inherits; the
    plain suggestion otherwise), adds the cache header exactly when
    [cache.get] answered for every title, and leaves one enrichment fetch
    pending per miss, duplicates included. *)
Theorem handler_enhanced req res w json items :
  isUndefined (q req) = false → is_Some (BING_APP_ID w) →
  lasting (cache w) →
  enhance req = JStr "true" →
  SuggestionEnvelope json items → Forall isObject items →
  Forall (λ raw, is_Some (NodeCache.validKey (title (plainOf raw)))) items →
  ∃ res' w',
    handler req (JsonBody json) res w = (res', w') ∧
    sent res' = SentJson (q req) (slot w <$> (plainOf <$> items)) ∧
    headers res' =
      (if forallb (λ s, negb (isMiss w s)) (plainOf <$> items)
       then headers res ++ [("Cache-Control", "public, max-age=86400")]
       else headers res) ∧
    pending w' =
      pending w ++
      (enrichment w <$>
       filter (λ s, cached w (title s) = None) (plainOf <$> items)) ∧
    fetched w' =
      fetched w ++
      suggestionsUrl w (q req) ::
      ((λ s, searchUrl w (title s)) <$>
       filter (λ s, cached w (title s) = None) (plainOf <$> items)).
Proof.
  intros Hq Hkey Hlasting Henhance Henvelope Hobjects Hkeys. unfold handler.
  rewrite (handler_try_fetches _ _ _ _ Hq Hkey).
  rewrite (onSuggestions_envelope _ _ Henvelope Hobjects), Henhance. simpl.
  set (w1 := noteFetch _ w).
  destruct (fetchBingEntities_from_spec (plainOf <$> items) [] true w w1)
    as (w' & Hrun & _ & _ & _ & Hpending & Hfetched).
  { done. }
  { same_view. }
  { by apply Forall_fmap. }
  unfold mbind, M_bind, fetchBingEntities. rewrite Hrun. simpl.
  eexists _, w'. split; [done |]. simpl.
  split_and!; [done | | done |].
  - by destruct (forallb _ _).
  - rewrite Hfetched. simpl. by rewrite <- app_assoc.
Qed.

End HandlerFacts.

Lemma handler_missing_q_witness :
  q {| q := JUndefined; enhance := JStr "true" |} = JUndefined ∧
  ∃ w', handler {| q := JUndefined; enhance := JStr "true" |}
          (JsonBody (suggestionsOf [])) freshResponse warmed =
          (res_sendStatus 400 freshResponse, w') ∧
        status (res_sendStatus 400 freshResponse) = Some 400 ∧
        fetched w' = fetched warmed ∧ pending w' = pending warmed ∧
        cache w' = cache warmed.
Proof.
  split; [reflexivity |].
  apply (handler_missing_q {| q := JUndefined; enhance := JStr "true" |}).
  reflexivity.
Defined.

Lemma handler_rate_limited_witness :
  isUndefined (q searchPar) = false ∧ is_Some (BING_APP_ID warmed) ∧
  RateLimitEnvelope rateLimited ∧
  ∃ w', handler searchPar (JsonBody rateLimited) freshResponse warmed =
          (res_sendStatus 429 freshResponse, w') ∧
        status (res_sendStatus 429 freshResponse) = Some 429 ∧
        fetched w' = fetched warmed ++ [suggestionsUrl warmed (q searchPar)] ∧
        pending w' = pending warmed ∧
        cache w' = cache warmed.
Proof.
  assert (RateLimitEnvelope rateLimited) as Hlimited.
  { eexists _, _. by split_and!. }
  split_and!; [reflexivity | by eexists | exact Hlimited |].
  apply (handler_rate_limited searchPar freshResponse warmed rateLimited);
    [reflexivity | by eexists | exact Hlimited].
Defined.

Lemma handler_plain_witness :
  isUndefined (q {| q := JStr "par"; enhance := JUndefined |}) = false ∧
  is_Some (BING_APP_ID warmed) ∧
  SuggestionEnvelope
    (suggestionsOf [rawItem "Paris" "u1"; rawItem "parrot" "u2"])
    [rawItem "Paris" "u1"; rawItem "parrot" "u2"] ∧
  Forall isObject [rawItem "Paris" "u1"; rawItem "parrot" "u2"] ∧
  ∃ res' w',
    handler {| q := JStr "par"; enhance := JUndefined |}
      (JsonBody (suggestionsOf [rawItem "Paris" "u1"; rawItem "parrot" "u2"]))
      freshResponse warmed = (res', w') ∧
    sent res' =
      SentJson (JStr "par")
        (Filled <$> (plainOf <$> [rawItem "Paris" "u1"; rawItem "parrot" "u2"])) ∧
    length (plainOf <$> [rawItem "Paris" "u1"; rawItem "parrot" "u2"]) = 2%nat ∧
    status res' = Some 200 ∧
    headers res' = [("Cache-Control", "public, max-age=86400")] ∧
    pending w' = pending warmed.
Proof.
  assert (SuggestionEnvelope
            (suggestionsOf [rawItem "Paris" "u1"; rawItem "parrot" "u2"])
            [rawItem "Paris" "u1"; rawItem "parrot" "u2"]) as Henvelope.
  { split; [discriminate |]. eexists _, _. by split_and!. }
  assert (Forall isObject [rawItem "Paris" "u1"; rawItem "parrot" "u2"])
    as Hobjects.
  { repeat constructor; by eexists. }
  split_and!; [reflexivity | by eexists | exact Henvelope | exact Hobjects |].
  apply (handler_plain {| q := JStr "par"; enhance := JUndefined |}
           freshResponse warmed
           (suggestionsOf [rawItem "Paris" "u1"; rawItem "parrot" "u2"])
           [rawItem "Paris" "u1"; rawItem "parrot" "u2"]);
    [reflexivity | by eexists | reflexivity | exact Henvelope | exact Hobjects].
Defined.

(** ** The enrichment callback *)

Section CallbackFacts.
Context `{Platform}.

Lemma onEntities_unfold plain json w :
  onEntities plain json w =
    match isRateLimitExceeded json with
    | Err e => (Err e, w)
    | Ok limited =>
        let w1 :=
          if limited : bool
          then (console_error
                  (LogMessage "Bing search API rate limit exceeded") w).2
          else w in
        match resultToCache plain json with
        | Err e => (Err e, w1)
        | Ok toCache => cache_set (title plain) toCache w1
        end
    end.
Proof.
  unfold onEntities, mbind, M_bind, lift, when.
  by destruct (isRateLimitExceeded json) as [[] |].
Qed.

(** The callback caches the suggestion it closed over unless the answer's
    first entity is the dominant one and bears its title. *)
Lemma resultToCache_plain plain json toCache :
  resultToCache plain json = Ok toCache →
  toCache = plain ∨ DominantMatch plain json.
Proof.
  unfold resultToCache.
  destruct (getProp json "entities") as [entities |] eqn:Hentities; simpl; [| done].
  destruct (truthy entities); [| intros [= <-]; by left].
  destruct (getProp entities "value") as [value |] eqn:Hvalue; simpl; [| done].
  destruct (getFirst value) as [first |] eqn:Hfirst; simpl; [| done].
  destruct (truthy first) eqn:Htruthy; [| done].
  destruct (getProp first "entityPresentationInfo") as [info |] eqn:Hinfo;
    simpl; [| done].
  destruct (getProp info "entityScenario") as [scenario |] eqn:Hscenario;
    simpl; [| done].
  destruct scenario as [| | | | scenario | |]; simpl;
    try (intros [= <-]; by left).
  case_bool_decide as Hdominant; simpl; [subst scenario | intros [= <-]; by left].
  destruct (getProp first "name") as [name |] eqn:Hname; simpl; [| done].
  destruct name as [| | | | name | |]; simpl; try done.
  destruct (title plain) as [| | | | t | |] eqn:Htitle; simpl; try done.
  case_bool_decide as Hsame; [| intros [= <-]; by left].
  intros _. right. exists entities, value, first, info, name, t.
  by split_and!.
Qed.

(** With an entity list that is empty, or a first entity without
    [entityPresentationInfo], reading [entityScenario] throws. *)
Lemma resultToCache_throws plain json entities value first :
  getProp json "entities" = Ok entities → truthy entities = true →
  getProp entities "value" = Ok value →
  getFirst value = Ok first →
  truthy first = false ∨ getProp first "entityPresentationInfo" = Ok JUndefined →
  resultToCache plain json = Err (TypeError "entityScenario").
Proof.
  intros Hentities Htruthy Hvalue Hfirst Hlacks. unfold resultToCache.
  rewrite Hentities. simpl. rewrite Htruthy, Hvalue. simpl.
  rewrite Hfirst. simpl.
  destruct Hlacks as [-> | Hinfo]; [done |].
  destruct (truthy first); [by rewrite Hinfo | done].
Qed.

Lemma cache_set_valid key k value w :
  NodeCache.validKey key = Some k →
  ∃ w', cache_set key value w = (Ok (), w') ∧
        NodeCache.options (cache w') = NodeCache.options (cache w) ∧
        NodeCache.data (cache w') =
          <[k := {| NodeCache.t :=
                      NodeCache.livetime (clock w)
                        (NodeCache.stdTTL (NodeCache.options (cache w)));
                    NodeCache.v := value |}]> (NodeCache.data (cache w)) ∧
        BING_APP_ID w' = BING_APP_ID w ∧ clock w' = clock w ∧
        console w' = console w ∧ fetched w' = fetched w ∧
        pending w' = pending w ∧ unhandled w' = unhandled w.
Proof.
  intros Hkey. unfold cache_set.
  destruct (set_valid (clock w) key k value (cache w) Hkey)
    as (c' & -> & Hoptions & Hdata).
  eexists. by split_and!.
Qed.

Lemma cache_set_invalid key value w :
  NodeCache.validKey key = None →
  cache_set key value w = (Err (KeyTypeError key), w).
Proof.
  intros Hkey. unfold cache_set. rewrite (set_invalid _ _ _ _ _ Hkey).
  by destruct w.
Qed.

(** What the callback leaves of the world: the cache as it was or with one
    entry written under the title, the console as it was or one message
    longer, and the rest untouched. *)
Lemma onEntities_frame plain json w r w' :
  onEntities plain json w = (r, w') →
  BING_APP_ID w' = BING_APP_ID w ∧ clock w' = clock w ∧
  fetched w' = fetched w ∧ pending w' = pending w ∧
  unhandled w' = unhandled w ∧
  NodeCache.options (cache w') = NodeCache.options (cache w) ∧
  (console w' = console w ∨
   console w' =
     console w ++ [LogMessage "Bing search API rate limit exceeded"]) ∧
  match r with
  | Err _ => cache w' = cache w
  | Ok _ =>
      ∃ k toCache,
        NodeCache.validKey (title plain) = Some k ∧
        resultToCache plain json = Ok toCache ∧
        NodeCache.data (cache w') =
          <[k := {| NodeCache.t :=
                      NodeCache.livetime (clock w)
                        (NodeCache.stdTTL (NodeCache.options (cache w)));
                    NodeCache.v := toCache |}]> (NodeCache.data (cache w))
  end.
Proof.
  rewrite onEntities_unfold.
  destruct (isRateLimitExceeded json) as [limited | e]; [| intros [= <- <-]; by split_and!; [..| left |]].
  set (w1 := if limited then _ else w).
  assert (BING_APP_ID w1 = BING_APP_ID w ∧ clock w1 = clock w ∧
          fetched w1 = fetched w ∧ pending w1 = pending w ∧
          unhandled w1 = unhandled w ∧ cache w1 = cache w ∧
          (console w1 = console w ∨
           console w1 =
             console w ++ [LogMessage "Bing search API rate limit exceeded"]))
    as (Hid & Hclock & Hfet & Hpen & Hunh & Hcache & Hcon).
  { unfold w1. destruct limited; simpl; split_and!; auto. }
  simpl. destruct (resultToCache plain json) as [toCache | e] eqn:Hresult.
  - destruct (NodeCache.validKey (title plain)) as [k |] eqn:Hkey.
    + destruct (cache_set_valid _ k toCache w1 Hkey)
        as (w2 & -> & Hopt2 & Hdata2 & ? & ? & Hcon2 & ? & ? & ?).
      intros [= <- <-]. split_and!; try congruence.
      exists k, toCache. split_and!; [done.. |].
      rewrite Hdata2. by rewrite Hclock, Hcache.
    + rewrite (cache_set_invalid _ _ _ Hkey). intros [= <- <-].
      by split_and!; try congruence.
  - intros [= <- <-]. by split_and!; try congruence.
Qed.

End CallbackFacts.

Lemma answer_later now now' k c :
  now ≤ now' → answer now k c = None → answer now' k c = None.
Proof.
  intros Hle. unfold answer, NodeCache.expired.
  destruct (NodeCache.read k c) as [| e |]; [done | | done].
  destruct (NodeCache.deleteOnExpire (NodeCache.options c));
    rewrite ?andb_false_r; [| done].
  rewrite !andb_true_r.
  destruct (negb (NodeCache.t e =? 0)); simpl; [| done].
  destruct (NodeCache.t e <? now) eqn:Hold; [| done].
  apply Z.ltb_lt in Hold. intros _.
  assert ((NodeCache.t e <? now') = true) as -> by (apply Z.ltb_lt; lia). done.
Qed.

Lemma keptForever_not_expires k c : keptForever k c → ¬ expires k c.
Proof.
  intros Hkept [deadline Hexpires].
  destruct (keptForever_peek (deadline + 1) k c Hkept) as [hit Hhit].
  rewrite Hexpires in Hhit by lia. done.
Qed.

Section BackgroundFacts.
Context `{Platform}.

(** A promise that settles touches the cache, the console and the list of
    unhandled rejections, and nothing a request in flight reads besides
    the cache: it fetches nothing, starts nothing and throws at nobody. *)
Lemma settle_frame p reply w :
  BING_APP_ID (settle p reply w) = BING_APP_ID w ∧
  clock (settle p reply w) = clock w ∧
  fetched (settle p reply w) = fetched w ∧
  pending (settle p reply w) = pending w ∧
  NodeCache.options (cache (settle p reply w)) = NodeCache.options (cache w).
Proof.
  unfold settle. destruct reply as [reason | | json]; [done | done |].
  destruct (onEntities (captured p) json w) as [r w'] eqn:Hrun.
  apply onEntities_frame in Hrun as (? & ? & ? & ? & ? & ? & _).
  by destruct r.
Qed.

(** C3, at the input where the code departs from it. An enrichment answer
    whose [entities.value] is empty resolves and holds no dominant entity
    named as the suggestion is titled, so the plain suggestion should be
    cached under the title. It is not: [json.entities.value[0] || {}]
    (line 92) yields an empty object, reading [entityScenario] off its
    missing [entityPresentationInfo] throws, and [cache.set] (line 112) is
    not reached. The cache is as it was, a lookup of the title answers as
    before, and the promise ends rejected. *)
Theorem mismatch_not_cached p json entities w :
  getProp json "entities" = Ok entities → truthy entities = true →
  getProp entities "value" = Ok (JArr []) →
  let w' := settle p (JsonBody json) w in
  ¬ DominantMatch (captured p) json ∧
  cache w' = cache w ∧
  cached w' (title (captured p)) = cached w (title (captured p)) ∧
  ∃ e, unhandled w' = unhandled w ++ [e].
Proof.
  intros Hentities Htruthy Hvalue w'.
  assert (cache w' = cache w ∧ ∃ e, unhandled w' = unhandled w ++ [e])
    as [Hcache Hrejected].
  { unfold w', settle. rewrite onEntities_unfold.
    rewrite (resultToCache_throws (captured p) json entities (JArr []) JUndefined)
      by (done || by left).
    destruct (isRateLimitExceeded json) as [[] | e]; simpl;
      (split; [done | by eexists]). }
  split_and!; [| done | | done].
  - intros (entities' & value & entity & info & name & t &
            Hentities' & Hvalue' & Hentity & Hinfo & _).
    rewrite Hentities in Hentities'. injection Hentities' as <-.
    rewrite Hvalue in Hvalue'. injection Hvalue' as <-.
    injection Hentity as <-. done.
  - assert (clock w' = clock w) as Hclock by apply settle_frame.
    unfold cached. by rewrite Hcache, Hclock.
Qed.

(** X14. When the answer is no error envelope and its first entity has its
    presentation info, but is not the dominant one, or is named otherwise
    than the suggestion is titled, the callback does return, and has cached
    the plain suggestion under its title. *)
Lemma other_entity_caches_plain plain json entities value entity info scenario k w :
  NodeCache.validKey (title plain) = Some k →
  getProp json "_type" ≠ Ok (JStr "ErrorResponse") →
  getProp json "entities" = Ok entities →
  getProp entities "value" = Ok value →
  getFirst value = Ok entity → truthy entity = true →
  getProp entity "entityPresentationInfo" = Ok info →
  getProp info "entityScenario" = Ok scenario →
  strictEqStr scenario "DominantEntity" = false ∨
  (∃ name t, getProp entity "name" = Ok (JStr name) ∧ title plain = JStr t ∧
             toLowerCase name ≠ toLowerCase t) →
  ∃ w', onEntities plain json w = (Ok (), w') ∧
        NodeCache.v <$> NodeCache.data (cache w') !! k = Some plain.
Proof.
  intros Hkey Hty Hentities Hvalue Hentity Htruthy Hinfo Hscenario Hother.
  assert (isRateLimitExceeded json = Ok false) as Hlimited.
  { unfold isRateLimitExceeded.
    destruct json; try done; simpl in *.
    destruct (own props "_type") as [| | | | ty | |]; simpl; try done.
    case_bool_decide; [by subst ty |]. done. }
  assert (resultToCache plain json = Ok plain) as Hresult.
  { unfold resultToCache. rewrite Hentities. simpl.
    destruct (truthy entities); [| done].
    rewrite Hvalue. simpl. rewrite Hentity. simpl. rewrite Htruthy, Hinfo.
    simpl. rewrite Hscenario. simpl.
    destruct Hother as [-> | (name & t & Hname & Htitle & Hdiffer)]; [done |].
    destruct (strictEqStr scenario "DominantEntity"); [| done].
    rewrite Hname, Htitle. simpl. by rewrite bool_decide_eq_false_2. }
  destruct (cache_set_valid (title plain) k plain w Hkey)
    as (w' & Hset & _ & Hdata & _).
  exists w'. rewrite onEntities_unfold, Hlimited, Hresult. simpl.
  split; [exact Hset |]. by rewrite Hdata, lookup_insert_eq.
Qed.

(** C10. For every enrichment answer whose [entities] member is present
    while [entities.value] is empty, or holds a first entity without
    [entityPresentationInfo], the promise ends rejected
    ([entityScenario] read off [undefined], unless the test of the error
    envelope threw before), [cache.set] is not reached and the cache is as
    it was. So a title that was not cached is still not cached, however
    much later, and a merger that meets it starts its enrichment fetch
    again. (For the merger, no entry of the store expires: so it is in
    every state of the process, see [booted_lasting].) *)
Theorem empty_entities_never_cached p json entities value first w :
  getProp json "entities" = Ok entities → truthy entities = true →
  getProp entities "value" = Ok value →
  getFirst value = Ok first →
  truthy first = false ∨ getProp first "entityPresentationInfo" = Ok JUndefined →
  let w1 := settle p (JsonBody json) w in
  (∃ e, unhandled w1 = unhandled w ++ [e] ∧
        (isRateLimitExceeded json = Ok false →
         e = TypeError "entityScenario")) ∧
  cache w1 = cache w ∧
  ∀ ms suggestions s,
    let w2 := elapse ms w1 in
    lasting (cache w) →
    cached w (title (captured p)) = None →
    NodeCache.validKey (title s) = NodeCache.validKey (title (captured p)) →
    s ∈ suggestions →
    Forall (λ s, is_Some (NodeCache.validKey (title s))) suggestions →
    ∃ results w3 before after,
      fetchBingEntities suggestions w2 = (Ok (results, false), w3) ∧
      pending w3 = pending w2 ++ before ++ enrichment w2 s :: after ∧
      searchUrl w2 (title s) ∈ drop (length (fetched w2)) (fetched w3).
Proof.
  intros Hentities Htruthy Hvalue Hfirst Hlacks w1.
  assert (w1 = settle p (JsonBody json) w) as Hw1 by done. clearbody w1.
  pose proof (resultToCache_throws (captured p) json entities value first
                Hentities Htruthy Hvalue Hfirst Hlacks) as Hthrows.
  assert ((∃ e, unhandled w1 = unhandled w ++ [e] ∧
                (isRateLimitExceeded json = Ok false →
                 e = TypeError "entityScenario")) ∧ cache w1 = cache w)
    as [Hrejected Hcache].
  { rewrite Hw1. unfold settle. rewrite onEntities_unfold, Hthrows.
    destruct (isRateLimitExceeded json) as [[] | e]; simpl.
    - split; [| done]. eexists. split; [done | done].
    - split; [| done]. eexists. split; [done | done].
    - split; [| done]. eexists. split; [done | done]. }
  split; [done |]. split; [done |].
  intros ms suggestions s w2 Hlasting Hmiss Hsame Hin Hkeys.
  assert (cached w2 (title s) = None) as Hmiss2.
  { unfold cached in *. rewrite Hsame.
    destruct (NodeCache.validKey (title (captured p))) as [k |];
      simpl in Hmiss |- *; [| done].
    assert (clock w1 = clock w) as Hclock by (rewrite Hw1; apply settle_frame).
    change (answer (clock w1 + Z.of_N ms) k (cache w1) = None).
    rewrite Hcache, Hclock.
    apply (answer_later (clock w)); [lia | done]. }
  assert (lasting (cache w2)) as Hlasting2.
  { change (lasting (cache w1)). by rewrite Hcache. }
  destruct (fetchBingEntities_from_spec suggestions [] true w2 w2
              Hlasting2 (sameView_refl w2) Hkeys)
    as (w3 & Hrun & _ & _ & _ & Hpending & Hfetched).
  apply list_elem_of_split in Hin as (l1 & l2 & ->).
  rewrite filter_app, filter_cons_True, fmap_app, fmap_cons in Hpending by done.
  rewrite filter_app, filter_cons_True, fmap_app, fmap_cons in Hfetched by done.
  eexists _, w3, _, _. unfold fetchBingEntities. rewrite Hrun. simpl.
  split_and!.
  - f_equal. f_equal. rewrite forallb_app. simpl. unfold isMiss at 2.
    rewrite Hmiss2. simpl. by rewrite andb_false_r.
  - exact Hpending.
  - rewrite Hfetched, drop_app_length. apply elem_of_app. right. left.
Qed.

End BackgroundFacts.

(** ** The process *)

Lemma sameView_trans w0 w1 w2 : sameView w0 w1 → sameView w1 w2 → sameView w0 w2.
Proof.
  intros (Hclock1 & Hid1 & Hpruned1) (Hclock2 & Hid2 & Hpruned2).
  split; [congruence | split; [congruence |]].
  eapply prunedTo_trans; [done |]. by rewrite <- Hclock1.
Qed.

Section ProcessFacts.
Context `{Platform}.

Lemma fetchBingEntities_from_view todo : ∀ results fullyEnhanced w r w',
  fetchBingEntities_from todo results fullyEnhanced w = (r, w') →
  sameView w w'.
Proof.
  induction todo as [| s rest IH]; intros results fullyEnhanced w r w'; simpl.
  - intros [= <- <-]. apply sameView_refl.
  - unfold mbind at 1, M_bind at 1.
    destruct (NodeCache.validKey (title s)) as [k |] eqn:Hkey.
    + destruct (cache_get_valid (title s) w) as (w1 & -> & Hview1 & _);
        [by eexists |].
      destruct (cached w (title s)).
      * intros Hrun%IH. by eapply sameView_trans.
      * unfold mbind, M_bind, getWorld. simpl. intros Hrun%IH.
        eapply sameView_trans; [exact Hview1 |].
        eapply sameView_trans; [| exact Hrun]. same_view.
    + rewrite (cache_get_invalid _ _ Hkey). intros [= <- <-].
      apply sameView_refl.
Qed.

(** A request leaves the clock, the credential and every live cache entry
    as it found them. *)
Lemma handler_view req reply res w : sameView w (handler req reply res w).2.
Proof.
  unfold handler.
  destruct (handler_try req reply res w) as [r w'] eqn:Htry.
  assert (sameView w w') as Hview.
  { revert Htry. unfold handler_try, when.
    destruct (isUndefined (q req));
      [intros [= <- <-]; same_view |].
    unfold mbind at 1, M_bind at 1, mret at 1, M_ret at 1.
    unfold mbind at 1, M_bind at 1, getWorld at 1.
    destruct (bool_decide (BING_APP_ID w = None));
      [intros [= <- <-]; same_view |].
    unfold mbind at 1, M_bind at 1, mret at 1, M_ret at 1.
    unfold mbind at 1, M_bind at 1, fetchBingSuggestions.
    unfold mbind at 1, M_bind at 1, getWorld at 1.
    unfold mbind at 1, M_bind at 1, fetchJson, lift.
    destruct reply as [reason | | json];
      [intros [= <- <-]; same_view
      | intros [= <- <-]; same_view |].
    destruct (onSuggestions json) as [suggestions | e];
      [| intros [= <- <-]; same_view].
    unfold mbind, M_bind.
    destruct (strictEqStr (enhance req) "true").
    - destruct (fetchBingEntities suggestions _) as [r1 w1] eqn:Hmerge.
      apply fetchBingEntities_from_view in Hmerge.
      destruct r1 as [[results fullyEnhanced] | e]; intros [= <- <-];
        (eapply sameView_trans; [| exact Hmerge]); same_view.
    - intros [= <- <-]. same_view. }
  destruct r as [res' | e]; [done |].
  by destruct e.
Qed.

Lemma pushEach_plain items : ∀ acc results,
  pushEach items acc = Ok results → Forall isPlain acc → Forall isPlain results.
Proof.
  induction items as [| item rest IH]; intros acc results; simpl.
  - by intros [= <-].
  - unfold toEdgeSuggestion.
    destruct (getProp item "displayText") as [displayText |]; simpl; [| done].
    destruct (getProp item "url") as [address |]; simpl; [| done].
    intros Hrun Hacc. apply (IH _ _ Hrun), Forall_app. split; [done |].
    by repeat constructor.
Qed.

(** Whatever the suggestion API answered, the suggestions made of it are
    plain. *)
Lemma onSuggestions_plain json suggestions :
  onSuggestions json = Ok suggestions → Forall isPlain suggestions.
Proof.
  unfold onSuggestions.
  destruct (isRateLimitExceeded json) as [[] |]; simpl; [done | | done].
  destruct (getProp json "suggestionGroups") as [groups |]; simpl; [| done].
  destruct (getFirst groups) as [group |]; simpl; [| done].
  destruct (getProp group "searchSuggestions") as [raw |]; simpl; [| done].
  destruct (truthy raw); simpl.
  - destruct raw; simpl; try done. intros Hrun. by eapply pushEach_plain.
  - by intros [= <-].
Qed.

(** The promises a merger starts closed over suggestions of its list. *)
Lemma fetchBingEntities_from_starts todo : ∀ results fullyEnhanced w r w',
  fetchBingEntities_from todo results fullyEnhanced w = (r, w') →
  ∃ new, pending w' = pending w ++ new ∧ Forall (λ p, captured p ∈ todo) new.
Proof.
  induction todo as [| s rest IH]; intros results fullyEnhanced w r w'; simpl.
  - intros [= <- <-]. exists []. by rewrite app_nil_r.
  - unfold mbind at 1, M_bind at 1.
    destruct (NodeCache.validKey (title s)) as [k |] eqn:Hkey.
    + destruct (cache_get_valid (title s) w)
        as (w1 & -> & _ & _ & _ & Hpending1 & _); [by eexists |].
      destruct (cached w (title s)).
      * intros (new & -> & Hnew)%IH. exists new. rewrite Hpending1.
        split; [done |]. eapply Forall_impl; [exact Hnew |].
        intros p Hp. by right.
      * unfold mbind, M_bind, getWorld. simpl.
        intros (new & -> & Hnew)%IH. simpl. rewrite Hpending1, <- app_assoc.
        eexists. split; [done |]. constructor; [by left |].
        eapply Forall_impl; [exact Hnew |]. intros p Hp. by right.
    + rewrite (cache_get_invalid _ _ Hkey). intros [= <- <-].
      exists []. by rewrite app_nil_r.
Qed.

(** Whether it returns or throws, the loop only prunes the cache and starts
    fetches: one for each promise it leaves pending, each for a suggestion
    of its list whose title [cache.get] missed in the world [w0] the loop
    was entered in. *)
Lemma fetchBingEntities_from_effects todo : ∀ results fullyEnhanced w0 w r w',
  sameView w0 w →
  fetchBingEntities_from todo results fullyEnhanced w = (r, w') →
  sameView w0 w' ∧ console w' = console w ∧ unhandled w' = unhandled w ∧
  ∃ new,
    pending w' = pending w ++ new ∧
    fetched w' = fetched w ++ (url <$> new) ∧
    Forall (λ p, captured p ∈ todo ∧ cached w0 (title (captured p)) = None ∧
                 url p = searchUrl w0 (title (captured p))) new.
Proof.
  induction todo as [| s rest IH];
    intros results fullyEnhanced w0 w r w' Hview; simpl.
  - intros [= <- <-]. split_and!; [done.. |]. exists []. by rewrite !app_nil_r.
  - unfold mbind at 1, M_bind at 1.
    destruct (NodeCache.validKey (title s)) as [k |] eqn:Hkey.
    + destruct (cache_get_valid (title s) w)
        as (w1 & -> & Hview1 & Hcon1 & Hfet1 & Hpen1 & Hunh1); [by eexists |].
      pose proof (sameView_trans _ _ _ Hview Hview1) as Hview01.
      destruct (cached w (title s)) eqn:Hcached.
      * intros (? & Hcon & Hunh & new & Hpen & Hfet & Hnew)%(IH _ _ w0);
          [| done].
        split_and!; [done | congruence | congruence |].
        exists new. split_and!; [congruence | congruence |].
        eapply Forall_impl; [exact Hnew |].
        intros p (? & ? & ?). split_and!; [by right | done..].
      * apply (cached_miss_sameView w0 w _ Hview) in Hcached.
        unfold mbind, M_bind, getWorld. simpl.
        intros (? & Hcon & Hunh & new & Hpen & Hfet & Hnew)%(IH _ _ w0);
          [| eapply sameView_trans; [exact Hview01 | same_view]].
        simpl in Hcon, Hunh, Hpen, Hfet.
        split_and!; [done | congruence | congruence |].
        exists ({| url := searchUrl w1 (title s); captured := s |} :: new).
        rewrite Hpen, Hfet, Hpen1, Hfet1, <- !app_assoc. simpl.
        split_and!; [done | done |]. constructor.
        -- simpl. split_and!; [by left | done |].
           by apply searchUrl_sameView.
        -- eapply Forall_impl; [exact Hnew |].
           intros p (? & ? & ?). split_and!; [by right | done..].
    + rewrite (cache_get_invalid _ _ Hkey). intros [= <- <-].
      split_and!; [done.. |]. exists []. by rewrite !app_nil_r.
Qed.

(** The promises a request leaves behind closed over plain suggestions. *)
Lemma handler_starts req reply res w :
  ∃ new, pending (handler req reply res w).2 = pending w ++ new ∧
         Forall (λ p, isPlain (captured p)) new.
Proof.
  assert (∀ w' : World, pending w' = pending w →
            ∃ new, pending w' = pending w ++ new ∧
                   Forall (λ p, isPlain (captured p)) new) as Hnone.
  { intros w' ->. exists []. by rewrite app_nil_r. }
  unfold handler.
  destruct (handler_try req reply res w) as [r w'] eqn:Htry.
  assert (∃ new, pending w' = pending w ++ new ∧
                 Forall (λ p, isPlain (captured p)) new) as Hstarts.
  { revert Htry. unfold handler_try, when.
    destruct (isUndefined (q req)); [intros [= <- <-]; by apply Hnone |].
    unfold mbind at 1, M_bind at 1, mret at 1, M_ret at 1.
    unfold mbind at 1, M_bind at 1, getWorld at 1.
    destruct (bool_decide (BING_APP_ID w = None));
      [intros [= <- <-]; by apply Hnone |].
    unfold mbind at 1, M_bind at 1, mret at 1, M_ret at 1.
    unfold mbind at 1, M_bind at 1, fetchBingSuggestions.
    unfold mbind at 1, M_bind at 1, getWorld at 1.
    unfold mbind at 1, M_bind at 1, fetchJson, lift.
    destruct reply as [reason | | json];
      [intros [= <- <-]; by apply Hnone
      | intros [= <- <-]; by apply Hnone |].
    destruct (onSuggestions json) as [suggestions | e] eqn:Hsuggestions;
      [| intros [= <- <-]; by apply Hnone].
    apply onSuggestions_plain in Hsuggestions.
    unfold mbind, M_bind.
    destruct (strictEqStr (enhance req) "true");
      [| intros [= <- <-]; by apply Hnone].
    destruct (fetchBingEntities suggestions _) as [r1 w1] eqn:Hmerge.
    apply fetchBingEntities_from_starts in Hmerge as (new & Hpending & Hnew).
    assert (Forall (λ p, isPlain (captured p)) new) as Hplain.
    { eapply Forall_impl; [exact Hnew |]. intros p Hp. simpl in Hp.
      by eapply Forall_forall in Hsuggestions. }
    destruct r1 as [[results fullyEnhanced] | e]; intros [= <- <-];
      by exists new. }
  destruct r as [res' | e]; [done |].
  by destruct e.
Qed.

(** In the process, every pending enrichment closed over a plain
    suggestion: its [results[x]] is of type "search". *)
Lemma step_pending_plain e w :
  Forall (λ p, isPlain (captured p)) (pending w) →
  Forall (λ p, isPlain (captured p)) (pending (step e w)).
Proof.
  intros Hplain. destruct e as [req reply | n reply | | ms]; simpl.
  - destruct (handler_starts req reply freshResponse w) as (new & -> & Hnew).
    by apply Forall_app.
  - destruct (pending w !! n) as [p |]; [| done].
    destruct (settle_frame p reply (dropPending n w)) as (_ & _ & _ & -> & _).
    simpl. by apply Forall_delete.
  - unfold tick. by destruct (128 <? cacheSize w)%float.
  - done.
Qed.

Lemma booted_pending_plain es key now :
  Forall (λ p, isPlain (captured p)) (pending (run es (boot key now))).
Proof.
  assert (∀ w, Forall (λ p, isPlain (captured p)) (pending w) →
               Forall (λ p, isPlain (captured p)) (pending (run es w))) as Hrun.
  { induction es as [| e es IH]; intros w Hplain; [done |].
    by apply IH, step_pending_plain. }
  apply Hrun. constructor.
Qed.

(** Every event but a flushing [Tick] keeps an entry that never expires,
    in a cache whose [stdTTL] is 0. *)
Lemma step_keeps k e w :
  NodeCache.stdTTL (NodeCache.options (cache w)) = 0 →
  keptForever k (cache w) →
  (e = Tick → (128 <? cacheSize w)%float = false) →
  NodeCache.stdTTL (NodeCache.options (cache (step e w))) = 0 ∧
  keptForever k (cache (step e w)).
Proof.
  intros Hstd Hkept Hquiet. destruct e as [req reply | n reply | | ms]; simpl.
  - destruct (handler_view req reply freshResponse w) as (_ & _ & Hpruned).
    split; [by rewrite (proj1 Hpruned) | by eapply keptForever_pruned].
  - destruct (pending w !! n) as [p |]; [| done].
    change (cache w) with (cache (dropPending n w)) in Hstd, Hkept.
    generalize dependent (dropPending n w). clear w Hquiet. intros w Hstd Hkept.
    unfold settle. destruct reply as [reason | | json]; [done | done |].
    destruct (onEntities (captured p) json w) as [r w'] eqn:Hrun.
    apply onEntities_frame in Hrun as (_ & _ & _ & _ & _ & Hopt & _ & Hcache).
    destruct r as [[] | err]; simpl; [| by rewrite Hcache].
    split; [by rewrite Hopt |].
    destruct Hcache as (k' & toCache & _ & _ & Hdata).
    unfold keptForever. rewrite Hdata. destruct (decide (k' = k)) as [-> | Hne].
    + rewrite lookup_insert_eq. eexists. split; [done |]. simpl.
      by rewrite Hstd.
    + by rewrite lookup_insert_ne.
  - unfold tick. by rewrite Hquiet.
  - done.
Qed.

Lemma run_keeps k es : ∀ w,
  NodeCache.stdTTL (NodeCache.options (cache w)) = 0 →
  keptForever k (cache w) →
  unflushed es w →
  NodeCache.stdTTL (NodeCache.options (cache (run es w))) = 0 ∧
  keptForever k (cache (run es w)).
Proof.
  induction es as [| e es IH]; intros w Hstd Hkept Hquiet; [done |].
  destruct Hquiet as [Hquiet Hrest].
  destruct (step_keeps k e w Hstd Hkept Hquiet) as [Hstd' Hkept'].
  by apply IH.
Qed.

Lemma step_options e w :
  NodeCache.options (cache (step e w)) = NodeCache.options (cache w).
Proof.
  destruct e as [req reply | n reply | | ms]; simpl.
  - by destruct (handler_view req reply freshResponse w) as (_ & _ & -> & _).
  - destruct (pending w !! n) as [p |]; [| done].
    by destruct (settle_frame p reply (dropPending n w)) as (_ & _ & _ & _ & ->).
  - unfold tick. by destruct (128 <? cacheSize w)%float.
  - done.
Qed.

(** The process never changes the options it gave its cache. *)
Lemma run_options es : ∀ w,
  NodeCache.options (cache (run es w)) = NodeCache.options (cache w).
Proof.
  induction es as [| e es IH]; intros w; [done |].
  change (run (e :: es) w) with (run es (step e w)).
  by rewrite IH, step_options.
Qed.

Lemma booted_stdTTL es key now :
  NodeCache.stdTTL (NodeCache.options (cache (run es (boot key now)))) = 0.
Proof. by rewrite run_options. Qed.

(** C4, at the inputs where the code departs from it. When an enrichment
    fetch is rejected by the network, or its body is no JSON, or its
    callback throws, nothing is logged of it: the promise chain of lines
    74-113 ends without a [.catch], so the failure is the rejection of a
    promise nobody handles, and all a settling chain ever writes to the
    console is the rate-limit message of line 88. (The handler logs every
    error it catches, line 137.) *)
Theorem enrichment_failure_unhandled p reply w :
  let w' := settle p reply w in
  (console w' = console w ∨
   console w' =
     console w ++ [LogMessage "Bing search API rate limit exceeded"]) ∧
  match reply with
  | NetworkError reason =>
      console w' = console w ∧
      unhandled w' = unhandled w ++ [FetchError reason]
  | InvalidJson =>
      console w' = console w ∧ unhandled w' = unhandled w ++ [SyntaxError]
  | JsonBody json =>
      match onEntities (captured p) json w with
      | (Err e, _) => unhandled w' = unhandled w ++ [e]
      | (Ok _, _) => unhandled w' = unhandled w
      end
  end.
Proof.
  intros w'. unfold w', settle. clear w'.
  destruct reply as [reason | | json]; [by split; [left |].. |].
  destruct (onEntities (captured p) json w) as [r w1] eqn:Hrun.
  apply onEntities_frame in Hrun as (_ & _ & _ & _ & Hunh & _ & Hcon & _).
  destruct r as [[] | e]; simpl; by rewrite Hunh.
Qed.

(** C8 (amended). The cache is built with node-cache's default options,
    where [stdTTL] is 0, and the enrichment path calls [cache.set] without
    a [ttl]: the entry it writes carries the expiry time 0, "never", and no
    lapse of time makes a lookup miss it. Only the flush of the daily task
    ends its life. *)
Theorem enrichment_entry_never_expires plain json w w' :
  NodeCache.stdTTL (NodeCache.options (cache w)) = 0 →
  onEntities plain json w = (Ok (), w') →
  ∃ k, NodeCache.validKey (title plain) = Some k ∧
       keptForever k (cache w') ∧
       (∀ now, is_Some (peek now k (cache w'))) ∧
       ¬ expires k (cache w').
Proof.
  intros Hstd Hrun.
  apply onEntities_frame in Hrun as (_ & _ & _ & _ & _ & _ & _ & Hcache).
  destruct Hcache as (k & toCache & Hkey & _ & Hdata).
  assert (keptForever k (cache w')) as Hkept.
  { unfold keptForever. rewrite Hdata, lookup_insert_eq.
    eexists. split; [done |]. simpl. by rewrite Hstd. }
  exists k. split_and!; [done | done | |].
  - intros now. by apply keptForever_peek.
  - by apply keptForever_not_expires.
Qed.

(** C5. At every tick of the daily task: when the estimated footprint
    [(vsize + ksize) * 0.000001] exceeds 128, the cache is emptied of all
    its entries (and nothing else changes); otherwise the world, cache
    included, is left as it is. *)
Theorem tick_flushes_over_128 w :
  ((128 <? cacheSize w)%float = true →
   NodeCache.data (cache (tick w)) = ∅ ∧
   (∀ now k, peek now k (cache (tick w)) = None) ∧
   tick w = withCache NodeCache.flushAll w) ∧
  ((128 <? cacheSize w)%float = false → tick w = w).
Proof.
  unfold tick. split; intros ->; [| done].
  split_and!; [done | | done].
  intros now k. unfold peek. simpl. by rewrite lookup_empty.
Qed.

(** C9. For every enrichment answer that is a rate-limit error envelope
    (and so carries no [entities]), the callback logs, goes on and writes
    the plain suggestion into the cache under its title. From then on, as
    long as no tick flushes the cache, every merger finds that title cached
    and starts no enrichment fetch for it. (The cache is the process's own:
    [stdTTL] is the default 0.) *)
Theorem rate_limited_enrichment_caches_plain plain json k w :
  NodeCache.validKey (title plain) = Some k →
  NodeCache.stdTTL (NodeCache.options (cache w)) = 0 →
  RateLimitEnvelope json →
  (∃ entities, getProp json "entities" = Ok entities ∧ truthy entities = false) →
  ∃ w',
    onEntities plain json w = (Ok (), w') ∧
    console w' =
      console w ++ [LogMessage "Bing search API rate limit exceeded"] ∧
    NodeCache.data (cache w') !! k =
      Some {| NodeCache.t := 0; NodeCache.v := plain |} ∧
    ∀ es suggestions,
      unflushed es w' →
      Forall (λ s, is_Some (NodeCache.validKey (title s))) suggestions →
      let w2 := run es w' in
      ∃ results fullyEnhanced w3,
        fetchBingEntities suggestions w2 = (Ok (results, fullyEnhanced), w3) ∧
        (∀ s, s ∈ suggestions → NodeCache.validKey (title s) = Some k →
              is_Some (cached w2 (title s))) ∧
        (∀ p, p ∈ drop (length (pending w2)) (pending w3) →
              NodeCache.validKey (title (captured p)) ≠ Some k).
Proof.
  intros Hkey Hstd Hlimited%isRateLimitExceeded_envelope
    (entities & Hentities & Hfalsy).
  assert (resultToCache plain json = Ok plain) as Hresult.
  { unfold resultToCache. rewrite Hentities. simpl. by rewrite Hfalsy. }
  set (w1 := (console_error
                (LogMessage "Bing search API rate limit exceeded") w).2).
  destruct (cache_set_valid (title plain) k plain w1 Hkey)
    as (w' & Hset & Hopt & Hdata & _ & _ & Hcon & _).
  exists w'. rewrite onEntities_unfold, Hlimited, Hresult.
  assert (NodeCache.data (cache w') !! k =
          Some {| NodeCache.t := 0; NodeCache.v := plain |}) as Hentry.
  { rewrite Hdata, lookup_insert_eq. simpl. by rewrite Hstd. }
  split_and!; [exact Hset | by rewrite Hcon | exact Hentry |].
  intros es suggestions Hquiet Hkeys w2.
  destruct (run_keeps k es w') as [_ Hkept]; [by rewrite Hopt | | done |].
  { eexists. by split; [exact Hentry |]. }
  fold w2 in Hkept.
  assert (∀ s, NodeCache.validKey (title s) = Some k →
               is_Some (cached w2 (title s))) as Hhit.
  { intros s Hs. unfold cached. rewrite Hs. simpl.
    by apply keptForever_answer. }
  destruct (fetchBingEntities_from_total suggestions [] true w2 Hkeys)
    as ([results fullyEnhanced] & w3 & Hrun).
  exists results, fullyEnhanced, w3. split; [exact Hrun |]. split; [by auto |].
  destruct (fetchBingEntities_from_effects _ _ _ w2 w2 _ _
              (sameView_refl w2) Hrun)
    as (_ & _ & _ & new & Hpending & _ & Hnew).
  intros p. rewrite Hpending, drop_app_length. intros Hp Hs.
  eapply Forall_forall in Hnew as (_ & Hmiss & _); [| exact Hp].
  destruct (Hhit _ Hs) as [hit Hcached]. congruence.
Qed.

End ProcessFacts.

(** ** The claims on sample inputs *)

Lemma mismatch_not_cached_witness :
  getProp (entitiesOf []) "entities" = Ok (JObj [("value", JArr [])]) ∧
  truthy (JObj [("value", JArr [])]) = true ∧
  getProp (JObj [("value", JArr [])]) "value" = Ok (JArr []) ∧
  let w' := settle (enrichment warmed parrot) (JsonBody (entitiesOf [])) warmed in
  ¬ DominantMatch parrot (entitiesOf []) ∧
  cache w' = cache warmed ∧
  cached w' (title parrot) = cached warmed (title parrot) ∧
  ∃ e, unhandled w' = unhandled warmed ++ [e].
Proof.
  split_and!; [reflexivity.. |].
  exact (mismatch_not_cached (H := demo) (enrichment warmed parrot)
           (entitiesOf []) (JObj [("value", JArr [])]) warmed
           eq_refl eq_refl eq_refl).
Defined.

(** There "parrot" was not cached, and is not cached afterwards; the
    promise was rejected with the [TypeError]. *)
Example mismatch_leaves_parrot_uncached :
  cached (settle (enrichment warmed parrot) (JsonBody (entitiesOf [])) warmed)
    (title parrot) = None ∧
  unhandled (settle (enrichment warmed parrot) (JsonBody (entitiesOf [])) warmed) =
    [TypeError "entityScenario"].
Proof. split; vm_compute; reflexivity. Qed.

(** With a first entity that is another one the callback does return, and
    "parrot" is cached as it was suggested. *)
Example mismatch_caches_parrot :
  peek 5000 "parrot"
    (cache (settle (enrichment warmed parrot)
              (JsonBody (entitiesOf [entityNamed "Paris" "DominantEntity"]))
              warmed)) = Some parrot.
Proof. vm_compute. reflexivity. Qed.

Lemma empty_entities_never_cached_witness :
  getProp (entitiesOf []) "entities" = Ok (JObj [("value", JArr [])]) ∧
  truthy (JObj [("value", JArr [])]) = true ∧
  getProp (JObj [("value", JArr [])]) "value" = Ok (JArr []) ∧
  getFirst (JArr []) = Ok JUndefined ∧
  truthy JUndefined = false ∧
  let w1 := settle (enrichment warmed parrot) (JsonBody (entitiesOf [])) warmed in
  cache w1 = cache warmed ∧
  lasting (cache warmed) ∧
  cached warmed (title parrot) = None ∧
  ∃ results w3 before after,
    fetchBingEntities [paris; parrot] (elapse 60000 w1) =
      (Ok (results, false), w3) ∧
    pending w3 =
      pending (elapse 60000 w1) ++
      before ++ enrichment (elapse 60000 w1) parrot :: after.
Proof.
  split_and!; [reflexivity.. |].
  destruct (empty_entities_never_cached (H := demo) (enrichment warmed parrot)
              (entitiesOf []) (JObj [("value", JArr [])]) (JArr []) JUndefined
              warmed eq_refl eq_refl eq_refl eq_refl (or_introl eq_refl))
    as (_ & Hcache & Hlater).
  split; [exact Hcache |]. split; [exact warmed_lasting |].
  assert (cached warmed (title parrot) = None) as Hmiss
    by (vm_compute; reflexivity).
  split; [exact Hmiss |].
  destruct (Hlater 60000%N [paris; parrot] parrot warmed_lasting Hmiss eq_refl)
    as (results & w3 & before & after & Hrun & Hpending & _).
  { apply list_elem_of_further, list_elem_of_here. }
  { repeat constructor; by eexists. }
  by exists results, w3, before, after.
Defined.

(** The same with a first entity that has no [entityPresentationInfo]. *)
Example entity_without_info_throws :
  unhandled (settle (enrichment warmed parrot)
               (JsonBody (entitiesOf [JObj [("name", JStr "parrot")]])) warmed) =
  [TypeError "entityScenario"].
Proof. vm_compute. reflexivity. Qed.

(** The enrichment fetch of "parrot" times out: the console stays as it
    was and the rejection is left unhandled. *)
Lemma enrichment_failure_unhandled_witness :
  console (settle (enrichment warmed parrot)
             (NetworkError "connect ETIMEDOUT") warmed) = console warmed ∧
  unhandled (settle (enrichment warmed parrot)
               (NetworkError "connect ETIMEDOUT") warmed) =
    unhandled warmed ++ [FetchError "connect ETIMEDOUT"].
Proof.
  exact (proj2 (enrichment_failure_unhandled (H := demo)
                  (enrichment warmed parrot)
                  (NetworkError "connect ETIMEDOUT") warmed)).
Defined.

(** The same failure of the suggestion fetch is logged by the handler. *)
Example suggestion_timeout_logged :
  console (handler searchPar (NetworkError "connect ETIMEDOUT")
             freshResponse warmed).2 =
  console warmed ++ [LogError (FetchError "connect ETIMEDOUT")].
Proof. vm_compute. reflexivity. Qed.

(** C8, as stated, fails: the entry the enrichment of "Paris" wrote is there
    and has no finite time to live. *)
Lemma enrichment_entry_outlives_every_deadline :
  NodeCache.v <$> NodeCache.data (cache warmed) !! "Paris" = Some parisEntity ∧
  ¬ expires "Paris" (cache warmed).
Proof.
  split; [vm_compute; reflexivity |].
  apply keptForever_not_expires.
  exists {| NodeCache.t := 0; NodeCache.v := parisEntity |}.
  split; [vm_compute |]; reflexivity.
Qed.

Lemma enrichment_entry_never_expires_witness :
  NodeCache.stdTTL (NodeCache.options (cache warmed)) = 0 ∧
  ∃ w',
    onEntities parrot (entitiesOf [entityNamed "Paris" "DominantEntity"]) warmed =
      (Ok (), w') ∧
    ∃ k, NodeCache.validKey (title parrot) = Some k ∧
         keptForever k (cache w') ∧
         (∀ now, is_Some (peek now k (cache w'))) ∧
         ¬ expires k (cache w').
Proof.
  split; [reflexivity |].
  eexists. split; [vm_compute; reflexivity |].
  eapply (enrichment_entry_never_expires parrot
            (entitiesOf [entityNamed "Paris" "DominantEntity"]) warmed);
    [reflexivity | vm_compute; reflexivity].
Defined.

Lemma tick_flushes_over_128_witness :
  (128 <? cacheSize (grown 128000001))%float = true ∧
  NodeCache.data (cache (grown 128000001)) ≠ ∅ ∧
  NodeCache.data (cache (tick (grown 128000001))) = ∅ ∧
  (128 <? cacheSize warmed)%float = false ∧
  tick warmed = warmed.
Proof.
  split_and!.
  - reflexivity.
  - intros Hempty. apply (f_equal (λ m, m !! "Paris")) in Hempty.
    vm_compute in Hempty. discriminate Hempty.
  - apply (proj1 (tick_flushes_over_128 (grown 128000001))). reflexivity.
  - reflexivity.
  - apply (proj2 (tick_flushes_over_128 warmed)). reflexivity.
Defined.

(** The threshold itself does not flush: 128 000 000 bytes make exactly 128
    in binary64, and "exceeds" is strict; one byte more flushes. *)
Example tick_at_128 :
  NodeCache.vsize (NodeCache.getStats (cache (grown 127999995))) = 127999995%float ∧
  NodeCache.ksize (NodeCache.getStats (cache (grown 127999995))) = 5%float ∧
  tick (grown 127999995) = grown 127999995 ∧
  NodeCache.data (cache (tick (grown 127999996))) = ∅.
Proof. split_and!; vm_compute; reflexivity. Qed.

Lemma rate_limited_enrichment_caches_plain_witness :
  NodeCache.validKey (title parrot) = Some "parrot" ∧
  NodeCache.stdTTL (NodeCache.options (cache warmed)) = 0 ∧
  RateLimitEnvelope rateLimited ∧
  (∃ entities,
     getProp rateLimited "entities" = Ok entities ∧ truthy entities = false) ∧
  ∃ w',
    onEntities parrot rateLimited warmed = (Ok (), w') ∧
    unflushed [Elapse 86400000; Tick; Handle searchPar InvalidJson] w' ∧
    let w2 := run [Elapse 86400000; Tick; Handle searchPar InvalidJson] w' in
    ∃ results fullyEnhanced w3,
      fetchBingEntities [paris; parrot] w2 = (Ok (results, fullyEnhanced), w3) ∧
      (∀ s, s ∈ [paris; parrot] → NodeCache.validKey (title s) = Some "parrot" →
            is_Some (cached w2 (title s))) ∧
      (∀ p, p ∈ drop (length (pending w2)) (pending w3) →
            NodeCache.validKey (title (captured p)) ≠ Some "parrot").
Proof.
  assert (RateLimitEnvelope rateLimited) as Hlimited.
  { eexists _, _. by split_and!. }
  assert (∃ entities, getProp rateLimited "entities" = Ok entities ∧
                      truthy entities = false) as Hbare.
  { by exists JUndefined. }
  split_and!; [reflexivity | reflexivity | exact Hlimited | exact Hbare |].
  destruct (rate_limited_enrichment_caches_plain (H := demo) parrot
              rateLimited "parrot" warmed eq_refl eq_refl Hlimited Hbare)
    as (w' & Hrun & _ & _ & Hlater).
  exists w'. split; [exact Hrun |].
  assert (unflushed [Elapse 86400000; Tick; Handle searchPar InvalidJson] w')
    as Hquiet.
  { vm_compute in Hrun. injection Hrun as <-.
    by split_and!. }
  split; [exact Hquiet |].
  apply Hlater; [exact Hquiet |]. repeat constructor; by eexists.
Defined.


(** * Further properties of suggest.ts *)

(** ** What can be thrown *)

Lemma getProp_throws v name e : getProp v name = Err e → e = TypeError name.
Proof. destruct v; simpl; congruence. Qed.

Lemma getFirst_throws v e : getFirst v = Err e → e = TypeError "0".
Proof. destruct v as [| | | | [] | |]; simpl; congruence. Qed.

Section Throws.
Context `{Platform}.

Lemma isRateLimitExceeded_throws json e :
  isRateLimitExceeded json = Err e → ∃ reading, e = TypeError reading.
Proof.
  unfold isRateLimitExceeded.
  destruct (getProp json "_type") as [ty |] eqn:Hty; simpl;
    [| intros [= <-]; eauto using getProp_throws].
  destruct (strictEqStr ty "ErrorResponse"); [| done].
  destruct (getProp json "errors") as [errors |] eqn:Herrors; simpl;
    [| intros [= <-]; eauto using getProp_throws].
  destruct (getFirst errors) as [first |] eqn:Hfirst; simpl;
    [| intros [= <-]; eauto using getFirst_throws].
  destruct (getProp first "code") as [code |] eqn:Hcode; simpl;
    [done | intros [= <-]; eauto using getProp_throws].
Qed.

Lemma pushEach_throws items : ∀ results e,
  pushEach items results = Err e → ∃ reading, e = TypeError reading.
Proof.
  induction items as [| item rest IH]; intros results e; simpl; [done |].
  unfold toEdgeSuggestion.
  destruct (getProp item "displayText") as [displayText |] eqn:Htext; simpl;
    [| intros [= <-]; eauto using getProp_throws].
  destruct (getProp item "url") as [address |] eqn:Haddress; simpl;
    [| intros [= <-]; eauto using getProp_throws].
  apply IH.
Qed.

(** The fetcher's callback throws the classified 429 or a [TypeError]. *)
Lemma onSuggestions_throws json e :
  onSuggestions json = Err e →
  e = ServerError "Bing autosuggest API rate limit exceeded" 429 ∨
  ∃ reading, e = TypeError reading.
Proof.
  unfold onSuggestions.
  destruct (isRateLimitExceeded json) as [[] |] eqn:Hlimited; simpl.
  - intros [= <-]. by left.
  - intros Hrun. right. revert Hrun.
    destruct (getProp json "suggestionGroups") as [groups |] eqn:Hgroups; simpl;
      [| intros [= <-]; eauto using getProp_throws].
    destruct (getFirst groups) as [group |] eqn:Hgroup; simpl;
      [| intros [= <-]; eauto using getFirst_throws].
    destruct (getProp group "searchSuggestions") as [raw |] eqn:Hraw; simpl;
      [| intros [= <-]; eauto using getProp_throws].
    destruct (truthy raw); [| done].
    destruct raw; simpl; try (intros [= <-]; eauto).
    apply pushEach_throws.
  - intros [= <-]. right. by eapply isRateLimitExceeded_throws.
Qed.

(** The merger throws what [cache.get] throws at a key of a wrong type. *)
Lemma fetchBingEntities_from_throws todo : ∀ results fullyEnhanced w e w',
  fetchBingEntities_from todo results fullyEnhanced w = (Err e, w') →
  ∃ s, s ∈ todo ∧ NodeCache.validKey (title s) = None ∧
       e = KeyTypeError (title s).
Proof.
  induction todo as [| s rest IH]; intros results fullyEnhanced w e w'; simpl;
    [done |].
  unfold mbind at 1, M_bind at 1.
  destruct (NodeCache.validKey (title s)) as [k |] eqn:Hkey.
  - destruct (cache_get_valid (title s) w) as (w1 & -> & _); [by eexists |].
    destruct (cached w (title s)).
    + intros (s' & ? & ? & ?)%IH. exists s'. split_and!; [by right | done..].
    + unfold mbind, M_bind, getWorld. simpl.
      intros (s' & ? & ? & ?)%IH. exists s'. split_and!; [by right | done..].
  - rewrite (cache_get_invalid _ _ Hkey). intros [= <- <-].
    exists s. split_and!; [by left | done..].
Qed.

End Throws.

(** ** The handler, case by case *)

Section HandlerCases.
Context `{Platform}.

(** The handler, laid out along its exits. *)
Lemma handler_unfold req reply res w :
  handler req reply res w =
    let caught (err : error) (w' : World) :=
      (match err with
       | ServerError _ statusCode =>
           res_sendStatus (if statusCode =? 0 then 500 else statusCode) res
       | _ => res
       end, (console_error (LogError err) w').2) in
    if isUndefined (q req) then
      caught (ServerError ("Missing query parameter " +:+ quoted "q") 400) w
    else if bool_decide (BING_APP_ID w = None) then
      caught (ServerError "Missing BING_APP_ID environment variable" 500) w
    else
      let w1 := noteFetch (suggestionsUrl w (q req)) w in
      match reply with
      | NetworkError reason => caught (FetchError reason) w1
      | InvalidJson => caught SyntaxError w1
      | JsonBody json =>
          match onSuggestions json with
          | Err e => caught e w1
          | Ok suggestions =>
              if strictEqStr (enhance req) "true" then
                match fetchBingEntities suggestions w1 with
                | (Ok (results, fullyEnhanced), w2) =>
                    (res_json (q req) results
                       (if fullyEnhanced : bool
                        then res_set oneDay.1 oneDay.2 res else res), w2)
                | (Err e, w2) => caught e w2
                end
              else
                (res_json (q req) (Filled <$> suggestions)
                   (res_set oneDay.1 oneDay.2 res), w1)
          end
      end.
Proof.
  unfold handler, handler_try, when.
  destruct (isUndefined (q req)); [done |].
  unfold mbind at 1, M_bind at 1, mret at 1, M_ret at 1.
  unfold mbind at 1, M_bind at 1, getWorld at 1.
  destruct (bool_decide (BING_APP_ID w = None)); [done |].
  unfold mbind at 1, M_bind at 1, mret at 1, M_ret at 1.
  unfold mbind at 1, M_bind at 1, fetchBingSuggestions.
  unfold mbind at 1, M_bind at 1, getWorld at 1.
  unfold mbind at 1, M_bind at 1, fetchJson, lift.
  destruct reply as [reason | | json]; [done | done |].
  destruct (onSuggestions json) as [suggestions | e]; [| by destruct e].
  unfold mbind, M_bind.
  destruct (strictEqStr (enhance req) "true"); [| done].
  by destruct (fetchBingEntities suggestions _) as [[[results []] | []] w2].
Qed.

(** X1. A request with [q] whose process has no [BING_APP_ID] is answered
    500; nothing is fetched or started, and the classified error is logged. *)
Theorem handler_missing_credential req reply res w :
  isUndefined (q req) = false → BING_APP_ID w = None →
  ∃ w',
    handler req reply res w = (res_sendStatus 500 res, w') ∧
    fetched w' = fetched w ∧ pending w' = pending w ∧ cache w' = cache w ∧
    console w' =
      console w ++
      [LogError (ServerError "Missing BING_APP_ID environment variable" 500)].
Proof.
  intros Hq Hkey. rewrite handler_unfold, Hq, Hkey. simpl.
  eexists. by split_and!.
Qed.

(** X2. When the awaited fetch rejects, or its body is not JSON, the handler
    logs the error and sends nothing at all: the response object is left as
    it came, no status, no body. Nothing else is fetched or started. *)
Theorem handler_fetch_failure req reply res w :
  isUndefined (q req) = false → is_Some (BING_APP_ID w) →
  reply = InvalidJson ∨ (∃ reason, reply = NetworkError reason) →
  ∃ err w',
    handler req reply res w = (res, w') ∧
    console w' = console w ++ [LogError err] ∧
    fetched w' = fetched w ++ [suggestionsUrl w (q req)] ∧
    pending w' = pending w ∧ cache w' = cache w.
Proof.
  intros Hq [key Hkey] Hreply. rewrite handler_unfold, Hq, Hkey. simpl.
  destruct Hreply as [-> | [reason ->]]; eexists _, _; by split_and!.
Qed.

(** X3. An answer that is no rate-limit envelope and has no
    [suggestionGroups] (any other error envelope, say) makes the fetcher
    throw a [TypeError]; the handler logs it and sends nothing. *)
Theorem handler_unexpected_envelope req res w json :
  isUndefined (q req) = false → is_Some (BING_APP_ID w) →
  ¬ RateLimitEnvelope json →
  getProp json "suggestionGroups" = Ok JUndefined →
  ∃ reading w',
    handler req (JsonBody json) res w = (res, w') ∧
    console w' = console w ++ [LogError (TypeError reading)] ∧
    pending w' = pending w ∧ cache w' = cache w.
Proof.
  intros Hq [key Hkey] Hother Hgroups.
  assert (∃ reading, onSuggestions json = Err (TypeError reading))
    as [reading Hthrows].
  { unfold onSuggestions.
    destruct (isRateLimitExceeded json) as [[] | e] eqn:Hlimited; simpl.
    - by apply isRateLimitExceeded_envelope in Hlimited.
    - rewrite Hgroups. simpl. by eexists.
    - apply isRateLimitExceeded_throws in Hlimited as [reading ->]. by eexists. }
  rewrite handler_unfold, Hq, Hkey, Hthrows. simpl.
  eexists _, _. by split_and!.
Qed.

(** X4. A success envelope whose first group has no [searchSuggestions] (or
    a falsy one) counts as no suggestion: the handler answers the empty list
    under the cache header, with or without [enhance], and starts
    nothing. *)
Theorem handler_no_suggestions req res w json groups group raw :
  isUndefined (q req) = false → is_Some (BING_APP_ID w) →
  getProp json "_type" ≠ Ok (JStr "ErrorResponse") →
  getProp json "suggestionGroups" = Ok groups →
  getFirst groups = Ok group →
  getProp group "searchSuggestions" = Ok raw → truthy raw = false →
  ∃ w',
    handler req (JsonBody json) res w =
      ({| headers := headers res ++ [oneDay];
          sent := SentJson (q req) [] |}, w') ∧
    fetched w' = fetched w ++ [suggestionsUrl w (q req)] ∧
    pending w' = pending w ∧ cache w' = cache w.
Proof.
  intros Hq [key Hkey] Hty Hgroups Hgroup Hraw Hfalsy.
  assert (onSuggestions json = Ok []) as Hnone.
  { unfold onSuggestions.
    assert (isRateLimitExceeded json = Ok false) as ->.
    { unfold isRateLimitExceeded.
      destruct json; try done; simpl in *.
      destruct (own props "_type") as [| | | | ty | |]; simpl; try done.
      case_bool_decide; [by subst ty |]. done. }
    simpl. rewrite Hgroups. simpl. rewrite Hgroup. simpl. rewrite Hraw.
    simpl. by rewrite Hfalsy. }
  rewrite handler_unfold, Hq, Hkey, Hnone. simpl.
  destruct (strictEqStr (enhance req) "true"); eexists; by split_and!.
Qed.

(** X5. Whatever the request and whatever the network answers, the handler
    ends in one of three ways: it sends nothing and leaves the response as it
    came; or it sends a bare status, which is 400, 429 or 500, without adding
    a header; or it sends the JSON body with the request's own [q], with the
    cache header added or not. *)
Theorem handler_outcomes req reply res w :
  (handler req reply res w).1 = res ∨
  (∃ code, (code = 400 ∨ code = 429 ∨ code = 500) ∧
           (handler req reply res w).1 = res_sendStatus code res) ∨
  (∃ suggestions,
     sent (handler req reply res w).1 = SentJson (q req) suggestions ∧
     (headers (handler req reply res w).1 = headers res ∨
      headers (handler req reply res w).1 = headers res ++ [oneDay])).
Proof.
  rewrite handler_unfold. cbv zeta.
  destruct (isUndefined (q req)); [right; left; exists 400; by auto |].
  destruct (bool_decide (BING_APP_ID w = None));
    [right; left; exists 500; by auto |].
  destruct reply as [reason | | json]; [by left | by left |].
  destruct (onSuggestions json) as [suggestions | e] eqn:Hsuggestions.
  - destruct (strictEqStr (enhance req) "true");
      [| right; right; exists (Filled <$> suggestions); by auto].
    destruct (fetchBingEntities suggestions _)
      as [[[results fullyEnhanced] | e] w2] eqn:Hmerge.
    + right. right. exists results. destruct fullyEnhanced; by auto.
    + unfold fetchBingEntities in Hmerge.
      apply fetchBingEntities_from_throws in Hmerge as (s & _ & _ & ->).
      by left.
  - apply onSuggestions_throws in Hsuggestions as [-> | [reading ->]];
      [right; left; exists 429; by auto | by left].
Qed.

End HandlerCases.

(** ** The merger, whatever its input *)

Section MergerEffects.
Context `{Platform}.

(** X7. Whether it returns or throws, [fetchBingEntities] never writes to
    the cache: no entry appears or changes, and every lookup answers as
    before. All it does besides reading is to start fetches, one for each
    promise it leaves pending, each for a suggestion of its list whose title
    was not cached; it logs nothing. *)
Theorem fetchBingEntities_only_starts suggestions w r w' :
  fetchBingEntities suggestions w = (r, w') →
  (∀ k e, NodeCache.data (cache w') !! k = Some e →
          NodeCache.data (cache w) !! k = Some e) ∧
  (∀ k, peek (clock w) k (cache w') = peek (clock w) k (cache w)) ∧
  clock w' = clock w ∧ console w' = console w ∧ unhandled w' = unhandled w ∧
  ∃ new,
    pending w' = pending w ++ new ∧
    fetched w' = fetched w ++ (url <$> new) ∧
    Forall (λ p, captured p ∈ suggestions ∧
                 cached w (title (captured p)) = None ∧
                 url p = searchUrl w (title (captured p))) new.
Proof.
  intros Hrun.
  apply (fetchBingEntities_from_effects _ _ _ w) in Hrun
      as ((Hclock & _ & Hpruned) & Hcon & Hunh & Hnew);
    [| apply sameView_refl].
  split_and!; [| | done..].
  - intros k e Hk. destruct Hpruned as (_ & _ & Hdata).
    destruct (Hdata k) as [<- | [Hnone _]]; [done | congruence].
  - intros k. by apply peek_pruned.
Qed.

Lemma fetchBingEntities_from_app before after : ∀ results fullyEnhanced w,
  fetchBingEntities_from (before ++ after) results fullyEnhanced w =
    match fetchBingEntities_from before results fullyEnhanced w with
    | (Ok (results', fullyEnhanced'), w') =>
        fetchBingEntities_from after results' fullyEnhanced' w'
    | (Err e, w') => (Err e, w')
    end.
Proof.
  induction before as [| s rest IH]; intros results fullyEnhanced w; [done |].
  simpl. unfold mbind, M_bind, getWorld.
  destruct (cache_get (title s) w) as [[[hit |] | e] w1]; [| | done].
  - apply IH.
  - simpl. apply IH.
Qed.

(** X8. Over a store none of whose entries expires (as in the process), a
    suggestion whose title is no cache key (an upstream item without
    [displayText], say) makes the merger throw at that slot: the caller gets
    no result at all, while the fetches started before it, one for each
    title [cache.get] missed, stay started. *)
Theorem fetchBingEntities_bad_key before s after w :
  lasting (cache w) →
  Forall (λ s, is_Some (NodeCache.validKey (title s))) before →
  NodeCache.validKey (title s) = None →
  ∃ w',
    fetchBingEntities (before ++ s :: after) w =
      (Err (KeyTypeError (title s)), w') ∧
    pending w' =
      pending w ++
      (enrichment w <$> filter (λ s, cached w (title s) = None) before).
Proof.
  intros Hlasting Hkeys Hbad. unfold fetchBingEntities.
  rewrite fetchBingEntities_from_app.
  destruct (fetchBingEntities_from_spec before [] true w w
              Hlasting (sameView_refl w) Hkeys)
    as (w1 & -> & _ & _ & _ & Hpending & _).
  simpl. unfold mbind, M_bind. rewrite (cache_get_invalid _ _ Hbad).
  by exists w1.
Qed.

Lemma fetchBingEntities_from_returns todo : ∀ results fullyEnhanced w r w',
  fetchBingEntities_from todo results fullyEnhanced w = (Ok r, w') →
  Forall (λ s, is_Some (NodeCache.validKey (title s))) todo.
Proof.
  induction todo as [| s rest IH]; intros results fullyEnhanced w r w'; simpl;
    [by constructor |].
  unfold mbind at 1, M_bind at 1.
  destruct (NodeCache.validKey (title s)) as [k |] eqn:Hkey.
  - destruct (cache_get_valid (title s) w) as (w1 & -> & _); [by eexists |].
    destruct (cached w (title s)).
    + intros Hrest%IH. constructor; [by rewrite Hkey | done].
    + unfold mbind, M_bind, getWorld. simpl.
      intros Hrest%IH. constructor; [by rewrite Hkey | done].
  - by rewrite (cache_get_invalid _ _ Hkey).
Qed.

End MergerEffects.

(** ** The callback, when the entity matches *)

Section CallbackEffects.
Context `{Platform}.

(** What the callback caches is the suggestion it closed over or an object
    of type "entity". *)
Lemma resultToCache_shape plain json toCache :
  resultToCache plain json = Ok toCache →
  toCache = plain ∨ type toCache = "entity".
Proof.
  unfold resultToCache.
  destruct (getProp json "entities") as [entities |]; simpl; [| done].
  destruct (truthy entities); [| intros [= <-]; by left].
  destruct (getProp entities "value") as [value |]; simpl; [| done].
  destruct (getFirst value) as [first |]; simpl; [| done].
  destruct (getProp (if truthy first then first else JObj [])
              "entityPresentationInfo") as [info |]; simpl; [| done].
  destruct (getProp info "entityScenario") as [scenario |]; simpl; [| done].
  destruct (if strictEqStr scenario "DominantEntity" then _ else _)
    as [[] |]; simpl; [| intros [= <-]; by left | done].
  destruct (getProp _ "name"); simpl; [| done].
  destruct (getProp _ "webSearchUrl"); simpl; [| done].
  destruct (getProp _ "image") as [image |]; simpl; [| done].
  destruct (if truthy image then _ else _); simpl; [| done].
  destruct (getProp info "entityTypeDisplayHint"); simpl; [| done].
  intros [= <-]. by right.
Qed.

(** X9. When the answer is no error envelope and its first entity is the
    dominant one and is named as the suggestion is titled, case apart, the
    callback caches, under the suggestion's own title, an object of type
    "entity": the entity's name as it is spelt upstream, its [webSearchUrl],
    the thumbnail of its image if it has an image, and its display hint. *)
Theorem matching_entity_cached plain json w
    entities value entity info name t webSearchUrl image thumbnailUrl hint :
  getProp json "_type" ≠ Ok (JStr "ErrorResponse") →
  getProp json "entities" = Ok entities →
  getProp entities "value" = Ok value →
  getFirst value = Ok entity →
  getProp entity "entityPresentationInfo" = Ok info →
  getProp info "entityScenario" = Ok (JStr "DominantEntity") →
  getProp entity "name" = Ok (JStr name) →
  title plain = JStr t →
  toLowerCase name = toLowerCase t →
  getProp entity "webSearchUrl" = Ok webSearchUrl →
  getProp entity "image" = Ok image →
  (if truthy image then getProp image "thumbnailUrl" else Ok JUndefined) =
    Ok thumbnailUrl →
  getProp info "entityTypeDisplayHint" = Ok hint →
  ∃ w',
    onEntities plain json w = (Ok (), w') ∧
    console w' = console w ∧
    NodeCache.v <$> NodeCache.data (cache w') !! t =
      Some {| type := "entity"; title := JStr name; value := webSearchUrl;
              entityImage := thumbnailUrl; subtitle2 := hint |}.
Proof.
  intros Hty Hentities Hvalue Hentity Hinfo Hscenario Hname Htitle Hsame
    Hurl Himage Hthumb Hhint.
  assert (isRateLimitExceeded json = Ok false) as Hlimited.
  { unfold isRateLimitExceeded.
    destruct json; try done; simpl in *.
    destruct (own props "_type") as [| | | | ty | |]; simpl; try done.
    case_bool_decide; [by subst ty |]. done. }
  assert (truthy entities = true) as Hentities_truthy.
  { destruct entities; try done; simpl in Hvalue; injection Hvalue as <-;
      by destruct entity. }
  assert (truthy entity = true) as Hentity_truthy.
  { by destruct entity. }
  assert (resultToCache plain json =
          Ok {| type := "entity"; title := JStr name; value := webSearchUrl;
                entityImage := thumbnailUrl; subtitle2 := hint |}) as Hresult.
  { unfold resultToCache. rewrite Hentities. simpl.
    rewrite Hentities_truthy, Hvalue. simpl. rewrite Hentity. simpl.
    rewrite Hentity_truthy, Hinfo. simpl. rewrite Hscenario. simpl.
    rewrite Hname, Htitle. simpl. rewrite bool_decide_eq_true_2 by done.
    simpl. rewrite Hurl. simpl. rewrite Himage. simpl.
    destruct (truthy image); [rewrite Hthumb | injection Hthumb as <-];
      simpl; by rewrite Hhint. }
  destruct (cache_set_valid (title plain) t
              {| type := "entity"; title := JStr name; value := webSearchUrl;
                 entityImage := thumbnailUrl; subtitle2 := hint |} w)
    as (w' & Hset & _ & Hdata & _ & _ & Hcon & _).
  { rewrite Htitle. apply validKey_string. }
  exists w'. rewrite onEntities_unfold, Hlimited, Hresult. simpl.
  split_and!; [exact Hset | exact Hcon |].
  by rewrite Hdata, lookup_insert_eq.
Qed.

(** X10. Round trip through the cache: once a callback has returned, in a
    cache whose [stdTTL] is 0, a merger that meets a suggestion of the same
    title, however much later, returns in its slot what the callback chose
    to cache, reports it as a hit and starts no fetch. *)
Theorem enrichment_round_trip plain json w w' :
  NodeCache.stdTTL (NodeCache.options (cache w)) = 0 →
  onEntities plain json w = (Ok (), w') →
  ∃ toCache,
    resultToCache plain json = Ok toCache ∧
    ∀ ms s,
      NodeCache.validKey (title s) = NodeCache.validKey (title plain) →
      ∃ w'',
        fetchBingEntities [s] (elapse ms w') =
          (Ok ([Filled toCache], true), w'') ∧
        pending w'' = pending w' ∧ fetched w'' = fetched w'.
Proof.
  intros Hstd Hrun.
  apply onEntities_frame in Hrun as (_ & _ & _ & _ & _ & _ & _ & Hcache).
  destruct Hcache as (k & toCache & Hkey & Hresult & Hdata).
  exists toCache. split; [done |]. intros ms s Hs.
  assert (cached (elapse ms w') (title s) = Some (Filled toCache)) as Hhit.
  { unfold cached. rewrite Hs, Hkey. simpl. unfold answer, NodeCache.read.
    rewrite Hdata, lookup_insert_eq. simpl.
    unfold NodeCache.expired. simpl. by rewrite Hstd. }
  destruct (cache_get_valid (title s) (elapse ms w'))
    as (w'' & Hget & _ & _ & Hfetched & Hpending & _).
  { rewrite Hs, Hkey. by eexists. }
  exists w''. unfold fetchBingEntities. simpl. unfold mbind, M_bind.
  rewrite Hget, Hhit. by split_and!.
Qed.

End CallbackEffects.

(** ** The maintenance task *)

(** X11. After the daily task the estimated footprint is not above 128,
    whatever it was before; running the task twice is running it once; and
    the task touches nothing but the cache's entries and statistics. *)
Theorem tick_settles w :
  (128 <? cacheSize (tick w))%float = false ∧
  tick (tick w) = tick w ∧
  NodeCache.options (cache (tick w)) = NodeCache.options (cache w) ∧
  pending (tick w) = pending w ∧ console (tick w) = console w ∧
  fetched (tick w) = fetched w ∧ clock (tick w) = clock w.
Proof.
  assert ((128 <? cacheSize (tick w))%float = false) as Hbelow.
  { unfold tick. by destruct (128 <? cacheSize w)%float eqn:Hover. }
  split; [exact Hbelow |]. split.
  - unfold tick at 1. by rewrite Hbelow.
  - unfold tick. by destruct (128 <? cacheSize w)%float.
Qed.

(** ** Invariants of the process *)

Section Invariants.
Context `{Platform}.

Lemma step_healthy e w : healthy w → healthy (step e w).
Proof.
  intros (Hstd & Hpending & Hentries).
  split; [by rewrite step_options |].
  split; [by apply step_pending_plain |].
  destruct e as [req reply | n reply | | ms]; simpl.
  - destruct (handler_view req reply freshResponse w)
      as (_ & _ & _ & _ & Hdata).
    intros k e. destruct (Hdata k) as [-> | [-> _]]; [apply Hentries | done].
  - destruct (pending w !! n) as [p |] eqn:Hp; [| done].
    assert (isPlain (captured p)) as Hplain.
    { eapply Forall_forall in Hpending; [exact Hpending |].
      by eapply list_elem_of_lookup_2. }
    change (cache w) with (cache (dropPending n w)) in Hstd, Hentries.
    generalize dependent (dropPending n w). clear w Hpending Hp.
    intros w Hstd Hentries.
    unfold settle. destruct reply as [reason | | json]; [done | done |].
    destruct (onEntities (captured p) json w) as [r w'] eqn:Hrun.
    apply onEntities_frame in Hrun as (_ & _ & _ & _ & _ & _ & _ & Hcache).
    destruct r as [[] | err]; simpl; [| by rewrite Hcache].
    destruct Hcache as (k' & toCache & _ & Hresult & Hdata).
    intros k e. rewrite Hdata. destruct (decide (k' = k)) as [-> | Hne].
    + rewrite lookup_insert_eq. intros [= <-]. simpl. rewrite Hstd.
      split; [done |].
      apply resultToCache_shape in Hresult as [-> | Hentity];
        [by left | by right].
    + rewrite lookup_insert_ne by done. apply Hentries.
  - unfold tick. destruct (128 <? cacheSize w)%float; [| done].
    intros k e. simpl. by rewrite lookup_empty.
  - done.
Qed.

Lemma run_healthy es : ∀ w, healthy w → healthy (run es w).
Proof.
  induction es as [| e es IH]; intros w Hw; [done |].
  by apply IH, step_healthy.
Qed.

Lemma boot_healthy key now : healthy (boot key now).
Proof.
  split; [done |]. split; [constructor |]. intros k e. simpl.
  by rewrite lookup_empty.
Qed.

(** X12. In the running process, whatever requests it has served and
    whatever answers its enrichment fetches got, every entry of the cache
    was stored to stay (its expiry time is 0) and holds either a plain
    suggestion of type "search" or an object of type "entity". *)
Theorem booted_cache_entries es key now k e :
  NodeCache.data (cache (run es (boot key now))) !! k = Some e →
  NodeCache.t e = 0 ∧ wellShaped (NodeCache.v e).
Proof.
  destruct (run_healthy es (boot key now) (boot_healthy key now))
    as (_ & _ & Hentries).
  apply Hentries.
Qed.

Lemma healthy_lasting w : healthy w → lasting (cache w).
Proof. intros (_ & _ & Hentries) k e Hk. by apply (Hentries k e). Qed.

(** No state of the process holds an entry that expires. *)
Lemma booted_lasting es key now : lasting (cache (run es (boot key now))).
Proof. apply healthy_lasting, run_healthy, boot_healthy. Qed.

(** X13. In the running process, a JSON answer of the handler echoes the
    request's [q], holds exactly one slot per suggestion the fetcher made of
    the upstream answer, and each slot is a plain suggestion of type
    "search", an entity out of the cache, or [null] (which [cache.get]
    answers for an uncached title that names a member every object
    inherits). *)
Theorem booted_response_shape es key now req reply echoed suggestions :
  sent (handler req reply freshResponse (run es (boot key now))).1 =
    SentJson echoed suggestions →
  echoed = q req ∧
  Forall (λ x, x = Null ∨ ∃ s, x = Filled s ∧ wellShaped s) suggestions ∧
  ∃ json made,
    reply = JsonBody json ∧ onSuggestions json = Ok made ∧
    length suggestions = length made.
Proof.
  pose proof (run_healthy es (boot key now) (boot_healthy key now)) as Hhealthy.
  generalize dependent (run es (boot key now)). intros w Hhealthy.
  pose proof (healthy_lasting w Hhealthy) as Hlasting.
  destruct Hhealthy as (_ & _ & Hentries).
  rewrite handler_unfold. cbv zeta.
  destruct (isUndefined (q req)); [done |].
  destruct (bool_decide (BING_APP_ID w = None)); [done |].
  destruct reply as [reason | | json]; [done | done |].
  destruct (onSuggestions json) as [made | e] eqn:Hmade; [| by destruct e].
  pose proof (onSuggestions_plain _ _ Hmade) as Hplain.
  destruct (strictEqStr (enhance req) "true").
  - set (w1 := noteFetch _ w).
    destruct (fetchBingEntities made w1) as [[[results flag] | e] w2] eqn:Hmerge;
      [| by destruct e].
    unfold fetchBingEntities in Hmerge.
    pose proof (fetchBingEntities_from_returns _ _ _ _ _ _ Hmerge) as Hkeys.
    destruct (fetchBingEntities_from_spec made [] true w1 w1
                Hlasting (sameView_refl w1) Hkeys) as (w2' & Hspec & _).
    rewrite Hspec in Hmerge. injection Hmerge as <- <- <-.
    simpl. intros [= <- <-]. split; [done |]. split.
    + apply Forall_fmap. eapply Forall_impl; [exact Hplain |].
      intros s Hs. unfold slot, cached. simpl.
      destruct (NodeCache.validKey (title s)) as [k |]; simpl;
        [| right; exists s; split; [done | by left]].
      unfold answer.
      destruct (NodeCache.read k (cache w)) as [| e |] eqn:Hread; simpl.
      * right. exists s. split; [done | by left].
      * apply read_wrapped in Hread.
        destruct (NodeCache.expired (clock w) e && _); simpl;
          [right; exists s; split; [done | by left] |].
        right. exists (NodeCache.v e). split; [done |].
        by apply (Hentries k e).
      * by left.
    + exists json, made. split_and!; [done | done |]. by rewrite length_fmap.
  - simpl. intros [= <- <-]. split; [done |]. split.
    + apply Forall_fmap. eapply Forall_impl; [exact Hplain |].
      intros s Hs. right. exists s. split; [done | by left].
    + exists json, made. split_and!; [done | done |]. by rewrite length_fmap.
Qed.

End Invariants.

(** ** The further properties on sample inputs *)

Lemma handler_missing_credential_witness :
  isUndefined (q searchPar) = false ∧ BING_APP_ID (boot None 0) = None ∧
  ∃ w',
    handler searchPar InvalidJson freshResponse (boot None 0) =
      (res_sendStatus 500 freshResponse, w') ∧
    fetched w' = [] ∧ pending w' = [].
Proof.
  split_and!; [reflexivity | reflexivity |].
  destruct (handler_missing_credential searchPar InvalidJson freshResponse
              (boot None 0) eq_refl eq_refl) as (w' & Hrun & Hfetched & Hpending & _).
  by exists w'.
Defined.

Lemma handler_fetch_failure_witness :
  isUndefined (q searchPar) = false ∧ is_Some (BING_APP_ID warmed) ∧
  ∃ err w',
    handler searchPar (NetworkError "connect ETIMEDOUT") freshResponse warmed =
      (freshResponse, w') ∧
    console w' = console warmed ++ [LogError err] ∧
    pending w' = pending warmed.
Proof.
  split_and!; [reflexivity | by eexists |].
  destruct (handler_fetch_failure searchPar (NetworkError "connect ETIMEDOUT")
              freshResponse warmed eq_refl)
    as (err & w' & Hrun & Hconsole & _ & Hpending & _);
    [by eexists | right; by eexists |].
  by exists err, w'.
Defined.

Lemma handler_unexpected_envelope_witness :
  ¬ RateLimitEnvelope unauthorized ∧
  getProp unauthorized "suggestionGroups" = Ok JUndefined ∧
  ∃ reading w',
    handler searchPar (JsonBody unauthorized) freshResponse warmed =
      (freshResponse, w') ∧
    console w' = console warmed ++ [LogError (TypeError reading)].
Proof.
  assert (¬ RateLimitEnvelope unauthorized) as Hother.
  { intros (errors & first & _ & Herrors & Hfirst & Hcode).
    injection Herrors as <-. injection Hfirst as <-. discriminate Hcode. }
  split_and!; [exact Hother | reflexivity |].
  destruct (handler_unexpected_envelope searchPar freshResponse warmed
              unauthorized eq_refl)
    as (reading & w' & Hrun & Hconsole & _); [by eexists | exact Hother | reflexivity |].
  by exists reading, w'.
Defined.

Lemma handler_no_suggestions_witness :
  getProp noSuggestions "_type" ≠ Ok (JStr "ErrorResponse") ∧
  getProp (JObj [("name", JStr "Web")]) "searchSuggestions" = Ok JUndefined ∧
  ∃ w',
    handler searchPar (JsonBody noSuggestions) freshResponse warmed =
      ({| headers := [oneDay]; sent := SentJson (JStr "par") [] |}, w') ∧
    pending w' = pending warmed.
Proof.
  split_and!; [discriminate | reflexivity |].
  destruct (handler_no_suggestions searchPar freshResponse warmed noSuggestions
              (JArr [JObj [("name", JStr "Web")]]) (JObj [("name", JStr "Web")])
              JUndefined eq_refl)
    as (w' & Hrun & _ & Hpending & _);
    [by eexists | discriminate | reflexivity.. |].
  by exists w'.
Defined.

Lemma handler_enhanced_witness :
  lasting (cache warmed) ∧
  Forall isObject [rawItem "Paris" "u1"; rawItem "parrot" "u2"] ∧
  ∃ res' w',
    handler searchPar
      (JsonBody (suggestionsOf [rawItem "Paris" "u1"; rawItem "parrot" "u2"]))
      freshResponse warmed = (res', w') ∧
    sent res' =
      SentJson (JStr "par")
        (slot warmed <$> (plainOf <$> [rawItem "Paris" "u1"; rawItem "parrot" "u2"])) ∧
    headers res' = [] ∧
    length (pending w') = S (length (pending warmed)).
Proof.
  assert (Forall isObject [rawItem "Paris" "u1"; rawItem "parrot" "u2"])
    as Hobjects.
  { repeat constructor; by eexists. }
  split; [exact warmed_lasting |]. split; [exact Hobjects |].
  destruct (handler_enhanced searchPar freshResponse warmed
              (suggestionsOf [rawItem "Paris" "u1"; rawItem "parrot" "u2"])
              [rawItem "Paris" "u1"; rawItem "parrot" "u2"] eq_refl)
    as (res' & w' & Hrun & Hsent & Hheaders & Hpending & _);
    [by eexists | exact warmed_lasting | reflexivity | | exact Hobjects | |].
  { split; [discriminate |]. eexists _, _. by split_and!. }
  { repeat constructor; by eexists. }
  exists res', w'. split_and!; [exact Hrun | exact Hsent | exact Hheaders |].
  by rewrite Hpending.
Defined.

Lemma fetchBingEntities_only_starts_witness :
  ∃ r w',
    fetchBingEntities [paris; parrot] warmed = (r, w') ∧
    (∀ k, peek (clock warmed) k (cache w') = peek (clock warmed) k (cache warmed)) ∧
    ∃ new, pending w' = pending warmed ++ new ∧
           fetched w' = fetched warmed ++ (url <$> new).
Proof.
  destruct (fetchBingEntities [paris; parrot] warmed) as [r w'] eqn:Hrun.
  exists r, w'. split; [reflexivity |].
  destruct (fetchBingEntities_only_starts [paris; parrot] warmed r w' Hrun)
    as (_ & Hpeek & _ & _ & _ & new & Hpending & Hfetched & _).
  split; [exact Hpeek |]. by exists new.
Defined.

Lemma fetchBingEntities_bad_key_witness :
  lasting (cache warmed) ∧
  Forall (λ s, is_Some (NodeCache.validKey (title s))) [parrot] ∧
  NodeCache.validKey (title untitled) = None ∧
  ∃ w',
    fetchBingEntities ([parrot] ++ untitled :: [paris]) warmed =
      (Err (KeyTypeError JUndefined), w') ∧
    pending w' = pending warmed ++ [enrichment warmed parrot].
Proof.
  assert (Forall (λ s, is_Some (NodeCache.validKey (title s))) [parrot])
    as Hkeys.
  { repeat constructor; by eexists. }
  split_and!; [exact warmed_lasting | exact Hkeys | reflexivity |].
  exact (fetchBingEntities_bad_key [parrot] untitled [paris] warmed
           warmed_lasting Hkeys eq_refl).
Defined.

Lemma matching_entity_cached_witness :
  lowerString "PARIS" = lowerString "Paris" ∧
  ∃ w',
    onEntities paris (entitiesOf [entityNamed "PARIS" "DominantEntity"])
      (boot (Some "KEY") 1000) = (Ok (), w') ∧
    console w' = [] ∧
    NodeCache.v <$> NodeCache.data (cache w') !! "Paris" = Some parisEntity.
Proof.
  split; [reflexivity |].
  apply (matching_entity_cached (H := demo) paris
           (entitiesOf [entityNamed "PARIS" "DominantEntity"])
           (boot (Some "KEY") 1000)
           (JObj [("value", JArr [entityNamed "PARIS" "DominantEntity"])])
           (JArr [entityNamed "PARIS" "DominantEntity"])
           (entityNamed "PARIS" "DominantEntity")
           (JObj [("entityScenario", JStr "DominantEntity");
                  ("entityTypeDisplayHint", JStr "City in France")])
           "PARIS" "Paris"
           (JStr "https://www.bing.com/entityexplore?q=Paris")
           (JObj [("thumbnailUrl", JStr "https://www.bing.com/th?id=A1")])
           (JStr "https://www.bing.com/th?id=A1")
           (JStr "City in France"));
    (discriminate || reflexivity).
Defined.

Lemma enrichment_round_trip_witness :
  NodeCache.stdTTL (NodeCache.options (cache warmed)) = 0 ∧
  onEntities parrot rateLimited warmed =
    (Ok (), (onEntities parrot rateLimited warmed).2) ∧
  ∃ w'',
    fetchBingEntities [parrot]
      (elapse 3600000 (onEntities parrot rateLimited warmed).2) =
      (Ok ([Filled parrot], true), w'') ∧
    pending w'' = pending (onEntities parrot rateLimited warmed).2.
Proof.
  assert (onEntities parrot rateLimited warmed =
          (Ok (), (onEntities parrot rateLimited warmed).2)) as Hrun.
  { vm_compute. reflexivity. }
  split_and!; [reflexivity | exact Hrun |].
  destruct (enrichment_round_trip parrot rateLimited warmed _ eq_refl Hrun)
    as (toCache & Hresult & Hlater).
  injection Hresult as <-.
  destruct (Hlater 3600000%N parrot eq_refl) as (w'' & Hmerge & Hpending & _).
  by exists w''.
Defined.

Lemma booted_cache_entries_witness :
  NodeCache.v <$>
    NodeCache.data (cache (run warming (boot (Some "KEY") 1000))) !! "Paris" =
    Some parisEntity ∧
  wellShaped parisEntity.
Proof.
  split; [vm_compute; reflexivity |].
  apply (booted_cache_entries warming (Some "KEY") 1000 "Paris"
           {| NodeCache.t := 0; NodeCache.v := parisEntity |}).
  vm_compute. reflexivity.
Defined.

Lemma booted_response_shape_witness :
  sent (handler searchPar
          (JsonBody (suggestionsOf [rawItem "Paris" "u1"; rawItem "parrot" "u2"]))
          freshResponse (run warming (boot (Some "KEY") 1000))).1 =
    SentJson (JStr "par")
      [Filled parisEntity; Filled (plainOf (rawItem "parrot" "u2"))] ∧
  Forall (λ x, x = Null ∨ ∃ s, x = Filled s ∧ wellShaped s)
    [Filled parisEntity; Filled (plainOf (rawItem "parrot" "u2"))].
Proof.
  assert (sent (handler searchPar
                  (JsonBody (suggestionsOf
                     [rawItem "Paris" "u1"; rawItem "parrot" "u2"]))
                  freshResponse (run warming (boot (Some "KEY") 1000))).1 =
          SentJson (JStr "par")
            [Filled parisEntity; Filled (plainOf (rawItem "parrot" "u2"))])
    as Hsent.
  { vm_compute. reflexivity. }
  split; [exact Hsent |].
  exact (proj1 (proj2 (booted_response_shape warming (Some "KEY") 1000 searchPar
                         _ _ _ Hsent))).
Defined.

Lemma other_entity_caches_plain_witness :
  lowerString "Paris" ≠ lowerString "parrot" ∧
  ∃ w',
    onEntities parrot (entitiesOf [entityNamed "Paris" "DominantEntity"]) warmed =
      (Ok (), w') ∧
    NodeCache.v <$> NodeCache.data (cache w') !! "parrot" = Some parrot.
Proof.
  split; [discriminate |].
  apply (other_entity_caches_plain (H := demo) parrot
           (entitiesOf [entityNamed "Paris" "DominantEntity"])
           (JObj [("value", JArr [entityNamed "Paris" "DominantEntity"])])
           (JArr [entityNamed "Paris" "DominantEntity"])
           (entityNamed "Paris" "DominantEntity")
           (JObj [("entityScenario", JStr "DominantEntity");
                  ("entityTypeDisplayHint", JStr "City in France")])
           (JStr "DominantEntity") "parrot" warmed);
    try (discriminate || reflexivity).
  right. exists "Paris", "parrot". split_and!; [reflexivity.. | discriminate].
Defined.
